(** * Chatbot_Test: the chat widget and the report request form

    A shallow embedding of the three browser scripts of the repository:
    - [src/script.js]         the chat widget, message blocks built node by node;
    - [src/unnamed/part_000]  the same widget, message blocks built from markup;
    - [src/unnamed/part_001]  the research-report form (one POST, one result).

    JavaScript strings are sequences of UTF-16 code units.  What the browser
    supplies (the clock, [Math.random], the HTTP response, the user's
    keystrokes) enters every function as an explicit argument. *)

From Stdlib Require Import List NArith ZArith QArith Qround String Ascii Bool Lia.
Import ListNotations.

Close Scope Q_scope.
Open Scope list_scope.

(** ** JavaScript strings *)

Module Js.

Definition code_unit := N.
Definition jsstring := list code_unit.

(** An ASCII literal of the source text, as code units. *)
Definition lit (s : string) : jsstring :=
  map N_of_ascii (list_ascii_of_string s).

(** The string of no characters. *)
Definition empty : jsstring := [].

(** The one-character string holding U+0022, the double quote. *)
Definition dquote : jsstring := [34%N].

(** [a === b] on strings. *)
Fixpoint strict_eq (a b : jsstring) : bool :=
  match a, b with
  | [], [] => true
  | x :: a', y :: b' => N.eqb x y && strict_eq a' b'
  | _, _ => false
  end.

(** ECMAScript WhiteSpace and LineTerminator code points, the characters
    [String.prototype.trim] strips: TAB, LF, VT, FF, CR, SP, NBSP, U+1680,
    U+2000..U+200A, U+2028, U+2029, U+202F, U+205F, U+3000 and U+FEFF. *)
Definition isWhiteSpace (c : code_unit) : bool :=
  match c with
  | 9 | 10 | 11 | 12 | 13 | 32 | 160 | 5760
  | 8232 | 8233 | 8239 | 8287 | 12288 | 65279 => true
  | _ => N.leb 8192 c && N.leb c 8202
  end%N.

Fixpoint trimStart (s : jsstring) : jsstring :=
  match s with
  | [] => []
  | c :: rest => if isWhiteSpace c then trimStart rest else s
  end.

Definition trimEnd (s : jsstring) : jsstring := rev (trimStart (rev s)).

(** [s.trim()] *)
Definition trim (s : jsstring) : jsstring := trimEnd (trimStart s).

(** The values the scripts handle: strings, and [undefined] for an array
    index or an object property that is not there. *)
Inductive jsval :=
| undefined
| str (s : jsstring).

(** ToString, as applied by [+] on a string and by template interpolation. *)
Definition toString (v : jsval) : jsstring :=
  match v with
  | undefined => lit "undefined"
  | str s => s
  end.

(** [l[i]] for an array of strings. *)
Definition element_at (l : list jsstring) (i : Z) : jsval :=
  if (i <? 0)%Z then undefined
  else match nth_error l (Z.to_nat i) with
       | Some s => str s
       | None => undefined
       end.

(** [Math.floor(x * n)] for a draw [x] of [Math.random()].  A double in
    [0, 1) is a dyadic rational and its product with a small power of two is
    exact, so the rationals carry the computation without rounding. *)
Definition floor_scaled (x : Q) (n : nat) : Z :=
  Qfloor (x * inject_Z (Z.of_nat n)).

(** [hay.includes(needle)], as a proposition. *)
Definition includes (hay needle : jsstring) : Prop :=
  exists before after, hay = before ++ needle ++ after.

End Js.
Import Js.

(** ** The document: message blocks of the chat display *)

Inductive node :=
| Text (data : jsstring)
| Element (tagName : string) (style : list (string * string)) (content : contents)
with contents :=
| ChildNodes (children : list node)
| InnerHTML (markup : jsstring).

(** [el.style.property = value] *)
Definition assign (property value : string) : string * string :=
  (property, value).

(** [document.createElement(tag)] followed by [el.textContent = s]. *)
Definition labelled (tag : string) (s : jsstring) : node :=
  Element tag [] (ChildNodes [Text s]).

(** One entry of [conversationHistory]: [{ role: ..., message: ... }]. *)
Record entry := { role : jsstring; message : jsval }.

(** A callback registered by [setTimeout]; the closure holds [userText]. *)
Record timer := { delay : N; userText_captured : jsstring }.

(** The module-level state of the chat script: the log, the children of
    [displayArea], the value of [inputField] and the pending timers, oldest
    first (timers of equal delay run in registration order). *)
Record chat := {
  conversationHistory : list entry;
  displayArea : list node;
  inputField_value : jsstring;
  timers : list timer
}.

(** What the browser can do to the page. *)
Inductive event :=
| UserEdits (value : jsstring)
| Click (now : jsstring)
| KeyPress (key : jsstring) (now : jsstring)
| TimerFires (x : Q) (now : jsstring).

Definition push_history (e : entry) (st : chat) : chat :=
  {| conversationHistory := conversationHistory st ++ [e];
     displayArea := displayArea st;
     inputField_value := inputField_value st;
     timers := timers st |}.

Definition appendChild (n : node) (st : chat) : chat :=
  {| conversationHistory := conversationHistory st;
     displayArea := displayArea st ++ [n];
     inputField_value := inputField_value st;
     timers := timers st |}.

Definition set_inputField_value (v : jsstring) (st : chat) : chat :=
  {| conversationHistory := conversationHistory st;
     displayArea := displayArea st;
     inputField_value := v;
     timers := timers st |}.

Definition setTimeout (userText : jsstring) (ms : N) (st : chat) : chat :=
  {| conversationHistory := conversationHistory st;
     displayArea := displayArea st;
     inputField_value := inputField_value st;
     timers := timers st ++ [{| delay := ms; userText_captured := userText |}] |}.

Definition set_timers (ts : list timer) (st : chat) : chat :=
  {| conversationHistory := conversationHistory st;
     displayArea := displayArea st;
     inputField_value := inputField_value st;
     timers := ts |}.

Definition welcome : jsstring :=
  lit "Welcome to the Chatbot Test Application! Send a message to get started.".

(** The block style set before the content is filled in, shared by both
    versions of [appendMessageToDisplay]. *)
Definition block_style (sender : jsstring) : list (string * string) :=
  [assign "marginBottom" "10px"; assign "padding" "8px";
   assign "borderRadius" "4px"]
  ++ (if strict_eq sender (lit "user")
      then [assign "backgroundColor" "#e3f2fd"; assign "textAlign" "right"]
      else [assign "backgroundColor" "#f1f8e9"; assign "textAlign" "left"]).

(** ** src/script.js *)

Module Script.

(** [now] is [new Date().toLocaleTimeString()] at the time of the call.  The
    scroll position set in the last line is layout and is not modelled. *)
Definition appendMessageToDisplay
    (now : jsstring) (sender : jsstring) (content : jsval) (st : chat) : chat :=
  let senderLabel := labelled "strong" (sender ++ lit ":") in
  let messageText := Text (lit " " ++ toString content ++ lit " ") in
  let timeStamp := labelled "small" (lit "(" ++ now ++ lit ")") in
  let messageBlock :=
    Element "div" (block_style sender)
            (ChildNodes [senderLabel; messageText; timeStamp]) in
  appendChild messageBlock st.

Definition responses (userMessage : jsstring) : list jsstring :=
  [ lit "I received your message: " ++ dquote ++ userMessage ++ dquote;
    lit "That's interesting! You said: " ++ dquote ++ userMessage ++ dquote;
    lit "Processing your input: " ++ dquote ++ userMessage ++ dquote;
    lit "Thank you for sharing: " ++ dquote ++ userMessage ++ dquote ].

(** [x] is the value returned by [Math.random()]. *)
Definition generateBotResponse (x : Q) (userMessage : jsstring) : jsval :=
  element_at (responses userMessage)
             (floor_scaled x (List.length (responses userMessage))).

(** The arrow function handed to [setTimeout]. *)
Definition botReplyCallback
    (x : Q) (now : jsstring) (userText : jsstring) (st : chat) : chat :=
  let botReply := generateBotResponse x userText in
  let st := push_history {| role := lit "bot"; message := botReply |} st in
  appendMessageToDisplay now (lit "bot") botReply st.

Definition handleUserMessage (now : jsstring) (st : chat) : chat :=
  let userText := trim (inputField_value st) in
  if strict_eq userText empty then st
  else
    let st := push_history {| role := lit "user"; message := str userText |} st in
    let st := appendMessageToDisplay now (lit "user") (str userText) st in
    let st := set_inputField_value empty st in
    setTimeout userText 500 st.

(** The listeners of the script and the timer queue. *)
Definition step (st : chat) (e : event) : chat :=
  match e with
  | UserEdits v => set_inputField_value v st
  | Click now => handleUserMessage now st
  | KeyPress key now =>
      if strict_eq key (lit "Enter") then handleUserMessage now st else st
  | TimerFires x now =>
      match timers st with
      | [] => st
      | t :: rest =>
          botReplyCallback x now (userText_captured t) (set_timers rest st)
      end
  end.

Definition run (st : chat) (es : list event) : chat := fold_left step es st.

(** The state once the script has been loaded: the last line of the file
    has run on an empty display.  [value] is what the input field holds. *)
Definition init (now : jsstring) (value : jsstring) : chat :=
  appendMessageToDisplay now (lit "bot") (str welcome)
    {| conversationHistory := [];
       displayArea := [];
       inputField_value := value;
       timers := [] |}.

End Script.

(** ** src/unnamed/part_001: the report form *)

Module Report.

Definition API_ENDPOINT : jsstring :=
  lit "https://apim-multiagent-research.azure-api.net/research".

(** The second argument of [fetch], with the URL. *)
Record request := {
  url : jsstring;
  method : jsstring;
  headers : list (jsstring * jsstring);
  body : jsstring
}.

(** What the handler does to the world outside the page. *)
Inductive effect :=
| Alert (message : jsstring)
| Fetch (req : request).

(** The four elements the script holds, and the effects so far. *)
Record page := {
  statusMessage_textContent : jsstring;
  result_innerHTML : jsstring;
  button_disabled : bool;
  questionBox_value : jsstring;
  trace : list effect
}.

(** *** [JSON.stringify] on an object of string properties *)

Definition backslash : jsstring := [92%N].
Definition newline : jsstring := [10%N].

Definition hex_digit (d : N) : code_unit :=
  if (d <? 10)%N then (48 + d)%N else (87 + d)%N.

(** [\uXXXX], lower-case hexadecimal. *)
Definition unicodeEscape (c : code_unit) : jsstring :=
  backslash ++ lit "u"
  ++ [hex_digit ((c / 4096) mod 16); hex_digit ((c / 256) mod 16);
      hex_digit ((c / 16) mod 16); hex_digit (c mod 16)]%N.

Definition isLeadingSurrogate (c : code_unit) : bool :=
  (55296 <=? c)%N && (c <=? 56319)%N.

Definition isTrailingSurrogate (c : code_unit) : bool :=
  (56320 <=? c)%N && (c <=? 57343)%N.

(** One code unit that is not part of a surrogate pair. *)
Definition quoteUnit (c : code_unit) : jsstring :=
  match c with
  | 8 => backslash ++ lit "b"
  | 9 => backslash ++ lit "t"
  | 10 => backslash ++ lit "n"
  | 12 => backslash ++ lit "f"
  | 13 => backslash ++ lit "r"
  | 34 => backslash ++ dquote
  | 92 => backslash ++ backslash
  | _ => if (c <? 32)%N || isLeadingSurrogate c || isTrailingSurrogate c
         then unicodeEscape c
         else [c]
  end%N.

Fixpoint quoteUnits (s : jsstring) : jsstring :=
  match s with
  | [] => []
  | c :: rest =>
      match rest with
      | d :: rest' =>
          if isLeadingSurrogate c && isTrailingSurrogate d
          then c :: d :: quoteUnits rest'
          else quoteUnit c ++ quoteUnits rest
      | [] => quoteUnit c
      end
  end.

(** QuoteJSONString *)
Definition quoteJSONString (s : jsstring) : jsstring :=
  dquote ++ quoteUnits s ++ dquote.

Fixpoint join (sep : jsstring) (parts : list jsstring) : jsstring :=
  match parts with
  | [] => []
  | [p] => p
  | p :: rest => p ++ sep ++ join sep rest
  end.

(** [JSON.stringify(o)] for an object [o] whose own properties, in order,
    are the given keys with string values. *)
Definition JSON_stringify (o : list (jsstring * jsstring)) : jsstring :=
  lit "{"
  ++ join (lit ",")
          (map (fun kv => quoteJSONString (fst kv) ++ lit ":"
                          ++ quoteJSONString (snd kv)) o)
  ++ lit "}".

(** *** The network *)

(** What [await response.json()] followed by the two property reads gives:
    the promise rejects (the body is not JSON); or it resolves to [null],
    where reading a property throws a TypeError; or it resolves to a value
    whose properties [question] and [document_url] read as given. *)
Inductive json_result :=
| JsonRejects (message : jsstring)
| JsonNull (typeError_message : jsstring)
| JsonValue (question document_url : jsval).

Record response := {
  status : N;
  statusText : jsstring;
  json : json_result
}.

(** [response.ok]: the status is in the range 200 to 299. *)
Definition ok (r : response) : bool :=
  (200 <=? status r)%N && (status r <=? 299)%N.

(** What [await fetch(...)] gives: a rejection (the request could not be
    made) or a response. *)
Inductive fetch_result :=
| NetworkError (message : jsstring)
| Responded (r : response).

(** *** Statements that may throw, over the page *)

Inductive completion (A : Type) :=
| Normal (a : A)
| Thrown (message : jsstring).
Arguments Normal {A} a.
Arguments Thrown {A} message.

Definition M (A : Type) := page -> completion A * page.

Definition ret {A} (a : A) : M A := fun p => (Normal a, p).

Definition bind {A B} (c : M A) (k : A -> M B) : M B :=
  fun p =>
    match c p with
    | (Normal a, p') => k a p'
    | (Thrown m, p') => (Thrown m, p')
    end.

Definition throw {A} (message : jsstring) : M A := fun p => (Thrown message, p).

(** [try { body } catch (error) { handler error.message } finally { final }] *)
Definition try_catch_finally
    (body : M unit) (handler : jsstring -> M unit) (final : M unit) : M unit :=
  fun p =>
    let caught :=
      match body p with
      | (Normal a, p') => (Normal a, p')
      | (Thrown m, p') => handler m p'
      end in
    match final (snd caught) with
    | (Normal _, p'') => (fst caught, p'')
    | (Thrown m, p'') => (Thrown m, p'')
    end.

Declare Scope js_scope.
Delimit Scope js_scope with js.
Notation "x <- c ;; k" := (bind c (fun x => k))
  (at level 61, c at next level, right associativity) : js_scope.
Notation "c ;; k" := (bind c (fun _ => k))
  (at level 61, right associativity) : js_scope.

Definition get_questionBox_value : M jsstring :=
  fun p => (Normal (questionBox_value p), p).

Definition set_statusMessage_textContent (s : jsstring) : M unit :=
  fun p => (Normal tt,
            {| statusMessage_textContent := s;
               result_innerHTML := result_innerHTML p;
               button_disabled := button_disabled p;
               questionBox_value := questionBox_value p;
               trace := trace p |}).

Definition set_result_innerHTML (s : jsstring) : M unit :=
  fun p => (Normal tt,
            {| statusMessage_textContent := statusMessage_textContent p;
               result_innerHTML := s;
               button_disabled := button_disabled p;
               questionBox_value := questionBox_value p;
               trace := trace p |}).

Definition set_button_disabled (b : bool) : M unit :=
  fun p => (Normal tt,
            {| statusMessage_textContent := statusMessage_textContent p;
               result_innerHTML := result_innerHTML p;
               button_disabled := b;
               questionBox_value := questionBox_value p;
               trace := trace p |}).

Definition perform (e : effect) : M unit :=
  fun p => (Normal tt,
            {| statusMessage_textContent := statusMessage_textContent p;
               result_innerHTML := result_innerHTML p;
               button_disabled := button_disabled p;
               questionBox_value := questionBox_value p;
               trace := trace p ++ [e] |}).

Definition alert (message : jsstring) : M unit := perform (Alert message).

(** [await fetch(url, init)]: the request goes out, and the handler resumes
    with what the network answered. *)
Definition fetch (req : request) (network : fetch_result) : M response :=
  bind (perform (Fetch req))
       (fun _ => match network with
                 | NetworkError m => throw m
                 | Responded r => ret r
                 end).

(** [await response.json()] *)
Definition response_json (r : response) : M json_result :=
  match json r with
  | JsonRejects m => throw m
  | data => ret data
  end.

(** [data.question] and [data.document_url] *)
Definition data_question (data : json_result) : M jsval :=
  match data with
  | JsonValue q _ => ret q
  | JsonNull m | JsonRejects m => throw m
  end.

Definition data_document_url (data : json_result) : M jsval :=
  match data with
  | JsonValue _ u => ret u
  | JsonNull m | JsonRejects m => throw m
  end.

(** [!s] for a string [s]. *)
Definition not_string (s : jsstring) : bool :=
  match s with
  | [] => true
  | _ :: _ => false
  end.

(** The template literal assigned to [result.innerHTML]. *)
Definition result_markup (question document_url : jsval) : jsstring :=
  newline
  ++ lit "            <p><strong>Research Question:</strong> "
  ++ toString question ++ lit "</p>" ++ newline
  ++ lit "            <p><strong>Download Report:</strong> " ++ newline
  ++ lit "               <a href=" ++ dquote ++ toString document_url ++ dquote
  ++ lit " target=" ++ dquote ++ lit "_blank" ++ dquote
  ++ lit ">Download</a></p>".

Open Scope js_scope.

(** The click listener of the generate button.  The handler is suspended at
    its two awaits; while it is, the button is disabled and nothing else
    writes the page, so a run is one transformer of the page that takes the
    answer of the network as an argument. *)
Definition onClick (network : fetch_result) : M unit :=
  value <- get_questionBox_value ;;
  let researchQuestion := trim value in
  if not_string researchQuestion then
    alert (lit "Please enter a research question.")
  else
    set_statusMessage_textContent (lit "Generating report, please wait...") ;;
    set_result_innerHTML empty ;;
    set_button_disabled true ;;
    try_catch_finally
      (response <- fetch {| url := API_ENDPOINT;
                            method := lit "POST";
                            headers := [(lit "Content-Type", lit "application/json")];
                            body := JSON_stringify [(lit "question", researchQuestion)] |}
                         network ;;
       (if negb (ok response)
        then throw (lit "Error: " ++ statusText response)
        else ret tt) ;;
       data <- response_json response ;;
       set_statusMessage_textContent (lit "Report generated successfully!") ;;
       question <- data_question data ;;
       document_url <- data_document_url data ;;
       set_result_innerHTML (result_markup question document_url))
      (fun error_message =>
         set_statusMessage_textContent (lit "Error: " ++ error_message))
      (set_button_disabled false).

Close Scope js_scope.

(** The page after the handler has run to its end. *)
Definition after_click (network : fetch_result) (p : page) : page :=
  snd (onClick network p).

(** The effects one run of the handler adds. *)
Definition requests_of (es : list effect) : list request :=
  flat_map (fun e => match e with Fetch r => [r] | Alert _ => [] end) es.

Definition alerts_of (es : list effect) : list jsstring :=
  flat_map (fun e => match e with Alert m => [m] | Fetch _ => [] end) es.

End Report.

(** ** The markup parser behind [innerHTML] *)

(** Assigning to [innerHTML] runs the HTML fragment parser on the string.
    This is the part of that parser the markup of the two scripts needs,
    after the tokenizer and the tree construction rules of the HTML
    standard ([in body], context element [div]): text, the start and end
    tags of [p], [a], [strong], [small] and [img] with their attributes, and
    tags that nest properly.  Everything else (character references,
    comments, other elements, tags closed out of order, NUL and CR) is
    outside the model: the parser then answers [None]. *)

Module Html.

Local Open Scope N_scope.

(** What the parser builds. *)
#[local] Unset Elimination Schemes.
Inductive hnode :=
| HText (data : jsstring)
| HElement (name : jsstring) (attributes : list (jsstring * jsstring))
           (children : list hnode).
#[local] Set Elimination Schemes.

Inductive token :=
| Character (c : code_unit)
| StartTag (name : jsstring) (attributes : list (jsstring * jsstring))
| EndTag (name : jsstring).

(** The tag token under construction. *)
Record tag := {
  closing : bool;
  tag_name : jsstring;
  tag_attributes : list (jsstring * jsstring)
}.

(** The states of the tokenizer.  An attribute under construction is the
    name read so far and, from the value states on, the value read so
    far. *)
Inductive tstate :=
| Data
| TagOpen
| EndTagOpen
| TagName (t : tag)
| BeforeAttributeName (t : tag)
| AttributeName (t : tag) (name : jsstring)
| AfterAttributeName (t : tag) (name : jsstring)
| BeforeAttributeValue (t : tag) (name : jsstring)
| AttributeValueDoubleQuoted (t : tag) (name value : jsstring)
| AttributeValueSingleQuoted (t : tag) (name value : jsstring)
| AttributeValueUnquoted (t : tag) (name value : jsstring)
| AfterAttributeValueQuoted (t : tag)
| SelfClosingStartTag (t : tag).

Definition isAsciiUpper (c : code_unit) : bool := (65 <=? c) && (c <=? 90).

Definition isAsciiAlpha (c : code_unit) : bool :=
  isAsciiUpper c || ((97 <=? c) && (c <=? 122)).

Definition lower (c : code_unit) : code_unit :=
  if isAsciiUpper c then c + 32 else c.

(** TAB, LF, FF and SPACE. *)
Definition isTagSpace (c : code_unit) : bool :=
  (c =? 9) || (c =? 10) || (c =? 12) || (c =? 32).

(** The elements whose start tags the model follows. *)
Definition parsed_elements : list jsstring :=
  [lit "p"; lit "a"; lit "strong"; lit "small"; lit "img"].

Definition new_tag (is_end : bool) (c : code_unit) : tag :=
  {| closing := is_end; tag_name := [lower c]; tag_attributes := [] |}.

Definition extend_name (t : tag) (c : code_unit) : tag :=
  {| closing := closing t;
     tag_name := tag_name t ++ [lower c];
     tag_attributes := tag_attributes t |}.

(** The attribute is complete; one whose name the tag already has is
    dropped. *)
Definition add_attribute (t : tag) (name value : jsstring) : tag :=
  if existsb (fun a => strict_eq (fst a) name) (tag_attributes t) then t
  else {| closing := closing t;
          tag_name := tag_name t;
          tag_attributes := tag_attributes t ++ [(name, value)] |}.

(** Emit the tag and go back to the data state.  The attributes of an end
    tag are ignored. *)
Definition emit (t : tag) : option (tstate * list token) :=
  if closing t then Some (Data, [EndTag (tag_name t)])
  else if existsb (strict_eq (tag_name t)) parsed_elements
       then Some (Data, [StartTag (tag_name t) (tag_attributes t)])
       else None.

Definition data (before : list token) (c : code_unit)
  : option (tstate * list token) :=
  if c =? 38 then None
  else if c =? 60 then Some (TagOpen, before)
  else Some (Data, before ++ [Character c]).

Definition before_attribute_name (t : tag) (c : code_unit)
  : option (tstate * list token) :=
  if isTagSpace c then Some (BeforeAttributeName t, [])
  else if c =? 47 then Some (SelfClosingStartTag t, [])
  else if c =? 62 then emit t
  else Some (AttributeName t [lower c], []).

Definition attribute_value_unquoted (t : tag) (name value : jsstring)
    (c : code_unit) : option (tstate * list token) :=
  if isTagSpace c then Some (BeforeAttributeName (add_attribute t name value), [])
  else if c =? 38 then None
  else if c =? 62 then emit (add_attribute t name value)
  else Some (AttributeValueUnquoted t name (value ++ [c]), []).

(** One step of the tokenizer: the next state and the tokens emitted.  Where
    the standard says to reconsume the character in another state, the step
    of that state is taken at once. *)
Definition tstep (s : tstate) (c : code_unit) : option (tstate * list token) :=
  if (c =? 0) || (c =? 13) then None
  else
    match s with
    | Data => data [] c
    | TagOpen =>
        if c =? 33 then None
        else if c =? 47 then Some (EndTagOpen, [])
        else if isAsciiAlpha c then Some (TagName (new_tag false c), [])
        else if c =? 63 then None
        else data [Character 60] c
    | EndTagOpen =>
        if isAsciiAlpha c then Some (TagName (new_tag true c), [])
        else if c =? 62 then Some (Data, [])
        else None
    | TagName t =>
        if isTagSpace c then Some (BeforeAttributeName t, [])
        else if c =? 47 then Some (SelfClosingStartTag t, [])
        else if c =? 62 then emit t
        else Some (TagName (extend_name t c), [])
    | BeforeAttributeName t => before_attribute_name t c
    | AttributeName t name =>
        if isTagSpace c then Some (AfterAttributeName t name, [])
        else if c =? 47
             then Some (SelfClosingStartTag (add_attribute t name empty), [])
        else if c =? 62 then emit (add_attribute t name empty)
        else if c =? 61 then Some (BeforeAttributeValue t name, [])
        else Some (AttributeName t (name ++ [lower c]), [])
    | AfterAttributeName t name =>
        if isTagSpace c then Some (AfterAttributeName t name, [])
        else if c =? 47
             then Some (SelfClosingStartTag (add_attribute t name empty), [])
        else if c =? 61 then Some (BeforeAttributeValue t name, [])
        else if c =? 62 then emit (add_attribute t name empty)
        else Some (AttributeName (add_attribute t name empty) [lower c], [])
    | BeforeAttributeValue t name =>
        if isTagSpace c then Some (BeforeAttributeValue t name, [])
        else if c =? 34 then Some (AttributeValueDoubleQuoted t name empty, [])
        else if c =? 39 then Some (AttributeValueSingleQuoted t name empty, [])
        else if c =? 62 then emit (add_attribute t name empty)
        else attribute_value_unquoted t name empty c
    | AttributeValueDoubleQuoted t name value =>
        if c =? 34
        then Some (AfterAttributeValueQuoted (add_attribute t name value), [])
        else if c =? 38 then None
        else Some (AttributeValueDoubleQuoted t name (value ++ [c]), [])
    | AttributeValueSingleQuoted t name value =>
        if c =? 39
        then Some (AfterAttributeValueQuoted (add_attribute t name value), [])
        else if c =? 38 then None
        else Some (AttributeValueSingleQuoted t name (value ++ [c]), [])
    | AttributeValueUnquoted t name value =>
        attribute_value_unquoted t name value c
    | AfterAttributeValueQuoted t =>
        if isTagSpace c then Some (BeforeAttributeName t, [])
        else if c =? 47 then Some (SelfClosingStartTag t, [])
        else if c =? 62 then emit t
        else before_attribute_name t c
    | SelfClosingStartTag t =>
        if c =? 62 then emit t else before_attribute_name t c
    end.

(** The end of the input: what is left of a [<] or [</] is text, a tag that
    was not closed is dropped. *)
Definition at_eof (s : tstate) : list token :=
  match s with
  | TagOpen => [Character 60]
  | EndTagOpen => [Character 60; Character 47]
  | _ => []
  end.

(** *** Tree construction *)

(** An element that is still open, its children latest first. *)
Record open_element := {
  open_name : jsstring;
  open_attributes : list (jsstring * jsstring);
  open_children : list hnode
}.

(** The children of the fragment so far, latest first, and the stack of
    open elements, innermost first. *)
Record builder := {
  root : list hnode;
  stack : list open_element
}.

Definition start : builder := {| root := []; stack := [] |}.

(** The children of the current node. *)
Definition current (b : builder) : list hnode :=
  match stack b with
  | [] => root b
  | o :: _ => open_children o
  end.

Definition with_current (cs : list hnode) (b : builder) : builder :=
  match stack b with
  | [] => {| root := cs; stack := [] |}
  | o :: below =>
      {| root := root b;
         stack := {| open_name := open_name o;
                     open_attributes := open_attributes o;
                     open_children := cs |} :: below |}
  end.

Definition insert (n : hnode) (b : builder) : builder :=
  with_current (n :: current b) b.

(** A character goes to the text node that ends the current node, or to a
    new text node. *)
Definition insert_character (c : code_unit) (b : builder) : builder :=
  with_current
    match current b with
    | HText d :: earlier => HText (d ++ [c]) :: earlier
    | cs => HText [c] :: cs
    end
    b.

(** What a run of characters makes of the children of the current node. *)
Definition append_text (t : jsstring) (cs : list hnode) : list hnode :=
  match cs with
  | HText d :: earlier => HText (d ++ t) :: earlier
  | _ => match t with
         | [] => cs
         | _ :: _ => HText t :: cs
         end
  end.

Definition push (name : jsstring) (attrs : list (jsstring * jsstring))
    (b : builder) : builder :=
  {| root := root b;
     stack := {| open_name := name; open_attributes := attrs;
                 open_children := [] |} :: stack b |}.

Definition closed (o : open_element) : hnode :=
  HElement (open_name o) (open_attributes o) (rev (open_children o)).

Definition is_open (name : jsstring) (b : builder) : bool :=
  existsb (fun o => strict_eq (open_name o) name) (stack b).

(** The rules for one token.  An [img] is inserted and closed at once; a
    [strong] or [small] is opened; a [p] or an [a] is opened unless one is
    open already (the standard then closes elements first); an end tag
    closes the current node when it has that name (otherwise the standard
    repairs the nesting). *)
Definition feed (t : token) (b : builder) : option builder :=
  match t with
  | Character c => Some (insert_character c b)
  | StartTag name attrs =>
      if strict_eq name (lit "img") then Some (insert (HElement name attrs []) b)
      else if strict_eq name (lit "strong") || strict_eq name (lit "small")
           then Some (push name attrs b)
      else if strict_eq name (lit "p") || strict_eq name (lit "a")
           then if is_open name b then None else Some (push name attrs b)
      else None
  | EndTag name =>
      if existsb (strict_eq name) [lit "p"; lit "a"; lit "strong"; lit "small"]
      then match stack b with
           | o :: below =>
               if strict_eq (open_name o) name
               then Some (insert (closed o) {| root := root b; stack := below |})
               else None
           | [] => None
           end
      else None
  end.

Fixpoint feed_all (ts : list token) (b : builder) : option builder :=
  match ts with
  | [] => Some b
  | t :: rest =>
      match feed t b with
      | Some b' => feed_all rest b'
      | None => None
      end
  end.

(** The end of the input: the elements still open stay in the tree with the
    children they have. *)
Fixpoint unwind (open : list open_element) (inner : list hnode)
    (fragment : list hnode) : list hnode :=
  match open with
  | [] => rev (inner ++ fragment)
  | o :: below =>
      unwind below
             [HElement (open_name o) (open_attributes o)
                       (rev (inner ++ open_children o))]
             fragment
  end.

(** The tokenizer hands each token to the tree construction as it emits
    it. *)
Fixpoint advance (s : tstate) (b : builder) (input : jsstring)
  : option (tstate * builder) :=
  match input with
  | [] => Some (s, b)
  | c :: rest =>
      match tstep s c with
      | Some (s', emitted) =>
          match feed_all emitted b with
          | Some b' => advance s' b' rest
          | None => None
          end
      | None => None
      end
  end.

(** The children an element gets when [markup] is assigned to its
    [innerHTML]. *)
Definition parse_fragment (markup : jsstring) : option (list hnode) :=
  match advance Data start markup with
  | Some (s, b) =>
      match feed_all (at_eof s) b with
      | Some b' => Some (unwind (stack b') [] (root b'))
      | None => None
      end
  | None => None
  end.

(** *** Reading the tree *)

(** [el.getAttribute(name)] *)
Definition getAttribute (name : jsstring)
    (attrs : list (jsstring * jsstring)) : option jsstring :=
  option_map snd (find (fun a => strict_eq (fst a) name) attrs).



(** A code unit that is text wherever it stands between tags: not [<], not
    [&], not NUL, not CR. *)
Definition isTextUnit (c : code_unit) : bool :=
  negb ((c =? 60) || (c =? 38) || (c =? 0) || (c =? 13)).

(** A code unit that is part of the value wherever it stands between the
    double quotes of an attribute: not the double quote, not [&], not NUL,
    not CR. *)
Definition isValueUnit (c : code_unit) : bool :=
  negb ((c =? 34) || (c =? 38) || (c =? 0) || (c =? 13)).

End Html.


(** ** src/unnamed/part_000 *)

(** This version fills each block through [innerHTML], so what the page
    does next depends on what the parser finds in the markup.  The model
    follows text, [strong] and [small] without attributes, and [img] with a
    [src] and possibly an [onerror] handler; for any other content of the
    markup, and for handler code it does not know, it answers [None]. *)

Module Part000.

(** An image the page is fetching, with the source of its [onerror]
    handler when it has one. *)
Record image := { onerror : option jsstring }.

(** The state of the script and the images still loading, oldest first. *)
Record document := {
  script : chat;
  loading : list image
}.

(** What the browser can do to this page: the events of the chat, and the
    outcome of fetching the image at a position of [loading]. *)
Inductive browser_event :=
| Page (e : event)
| ImageLoads (k : nat)
| ImageFails (k : nat).

Definition on_script (f : chat -> chat) (d : document) : document :=
  {| script := f (script d); loading := loading d |}.

(** The images an inserted node starts to load.  An [img] is followed when
    it has no attribute other than [src] and [onerror]: without a [src] it
    loads nothing, with a non-empty [src] it starts to load.  A [strong] or
    [small] is followed when it has no attribute. *)
Fixpoint images_of (n : Html.hnode) : option (list image) :=
  match n with
  | Html.HText _ => Some []
  | Html.HElement name attrs children =>
      if strict_eq name (lit "img") then
        if forallb (fun a => strict_eq (fst a) (lit "src")
                             || strict_eq (fst a) (lit "onerror")) attrs
        then match Html.getAttribute (lit "src") attrs with
             | None => Some []
             | Some src =>
                 if strict_eq src empty then None
                 else Some [{| onerror :=
                                 Html.getAttribute (lit "onerror") attrs |}]
             end
        else None
      else if (strict_eq name (lit "strong") || strict_eq name (lit "small"))
              && match attrs with [] => true | _ => false end
      then (fix all (l : list Html.hnode) : option (list image) :=
              match l with
              | [] => Some []
              | x :: rest =>
                  match images_of x, all rest with
                  | Some i, Some j => Some (i ++ j)
                  | _, _ => None
                  end
              end) children
      else None
  end.

Fixpoint images_of_all (l : list Html.hnode) : option (list image) :=
  match l with
  | [] => Some []
  | x :: rest =>
      match images_of x, images_of_all rest with
      | Some i, Some j => Some (i ++ j)
      | _, _ => None
      end
  end.

(** Running the body of an event handler attribute against the script's
    state.  The one statement followed is [conversationHistory.length=0],
    which empties the array; the handler's scope reaches the top-level
    [let] of the script. *)
Definition run_handler (code : jsstring) (st : chat) : option chat :=
  if strict_eq code (lit "conversationHistory.length=0")
  then Some {| conversationHistory := [];
               displayArea := displayArea st;
               inputField_value := inputField_value st;
               timers := timers st |}
  else None.

(** As in [src/script.js], except that the content of the block is given as
    one markup string assigned to [innerHTML]: the parser runs on it, and
    the images it creates start to load. *)
Definition appendMessageToDisplay
    (now : jsstring) (sender : jsstring) (content : jsval) (d : document)
  : option document :=
  let markup := lit "<strong>" ++ sender ++ lit ":</strong> "
                ++ toString content
                ++ lit " <small>(" ++ now ++ lit ")</small>" in
  let messageBlock := Element "div" (block_style sender) (InnerHTML markup) in
  match Html.parse_fragment markup with
  | Some children =>
      match images_of_all children with
      | Some images =>
          Some {| script := appendChild messageBlock (script d);
                  loading := loading d ++ images |}
      | None => None
      end
  | None => None
  end.

Definition responses (userMessage : jsstring) : list jsstring :=
  [ lit "I received your message: " ++ dquote ++ userMessage ++ dquote;
    lit "That's interesting! You said: " ++ dquote ++ userMessage ++ dquote;
    lit "Processing your input: " ++ dquote ++ userMessage ++ dquote;
    lit "Thank you for sharing: " ++ dquote ++ userMessage ++ dquote ].

Definition generateBotResponse (x : Q) (userMessage : jsstring) : jsval :=
  element_at (responses userMessage)
             (floor_scaled x (List.length (responses userMessage))).

Definition botReplyCallback
    (x : Q) (now : jsstring) (userText : jsstring) (d : document)
  : option document :=
  let botReply := generateBotResponse x userText in
  let d := on_script (push_history {| role := lit "bot"; message := botReply |})
                     d in
  appendMessageToDisplay now (lit "bot") botReply d.

Definition handleUserMessage (now : jsstring) (d : document)
  : option document :=
  let userText := trim (inputField_value (script d)) in
  if strict_eq userText empty then Some d
  else
    let d := on_script
               (push_history {| role := lit "user"; message := str userText |})
               d in
    match appendMessageToDisplay now (lit "user") (str userText) d with
    | Some d =>
        let d := on_script (set_inputField_value empty) d in
        Some (on_script (setTimeout userText 500) d)
    | None => None
    end.

(** The image at position [k] is no longer loading. *)
Definition settle (k : nat) (d : document) : document :=
  {| script := script d;
     loading := firstn k (loading d) ++ skipn (S k) (loading d) |}.

Definition step (d : document) (e : browser_event) : option document :=
  match e with
  | Page (UserEdits v) => Some (on_script (set_inputField_value v) d)
  | Page (Click now) => handleUserMessage now d
  | Page (KeyPress key now) =>
      if strict_eq key (lit "Enter") then handleUserMessage now d else Some d
  | Page (TimerFires x now) =>
      match timers (script d) with
      | [] => Some d
      | t :: rest =>
          botReplyCallback x now (userText_captured t)
                           (on_script (set_timers rest) d)
      end
  | ImageLoads k => Some (settle k d)
  | ImageFails k =>
      match nth_error (loading d) k with
      | None => Some d
      | Some {| onerror := None |} => Some (settle k d)
      | Some {| onerror := Some code |} =>
          match run_handler code (script d) with
          | Some st => Some (settle k {| script := st; loading := loading d |})
          | None => None
          end
      end
  end.

Fixpoint run (d : document) (es : list browser_event) : option document :=
  match es with
  | [] => Some d
  | e :: rest =>
      match step d e with
      | Some d' => run d' rest
      | None => None
      end
  end.

(** The page once the script has been loaded. *)
Definition init (now : jsstring) (value : jsstring) : option document :=
  appendMessageToDisplay now (lit "bot") (str welcome)
    {| script := {| conversationHistory := [];
                    displayArea := [];
                    inputField_value := value;
                    timers := [] |};
       loading := [] |}.

(** A session: the page is loaded, then the events happen. *)
Definition session (now value : jsstring) (es : list browser_event)
  : option document :=
  match init now value with
  | Some d => run d es
  | None => None
  end.

(** The events of a session that [src/script.js] sees as well: its page has
    no image to load. *)
Definition page_events (es : list browser_event) : list event :=
  flat_map (fun e => match e with Page e => [e] | _ => [] end) es.

End Part000.

(** ** The two chat scripts side by side *)

(** A string that is text wherever it lands in markup. *)
Definition is_text (s : jsstring) : bool := forallb Html.isTextUnit s.

(** An event that brings no markup into the page: what is typed and what
    the clock reads are text.  The outcome of an image load brings
    nothing. *)
Definition brings_text (e : Part000.browser_event) : bool :=
  match e with
  | Part000.Page (UserEdits v) => is_text v
  | Part000.Page (Click now) => is_text now
  | Part000.Page (KeyPress _ now) => is_text now
  | Part000.Page (TimerFires _ now) => is_text now
  | Part000.ImageLoads _ => true
  | Part000.ImageFails _ => true
  end.

(** Two blocks that agree on everything but how their content is given. *)
Definition same_frame (a b : node) : Prop :=
  match a, b with
  | Element tag_a style_a _, Element tag_b style_b _ =>
      tag_a = tag_b /\ style_a = style_b
  | _, _ => False
  end.

(** Two chat states that agree on the log, the input field and the pending
    timers, and whose displays hold blocks with the same frames. *)
Record same_chat (a b : chat) : Prop := {
  same_history : conversationHistory a = conversationHistory b;
  same_input : inputField_value a = inputField_value b;
  same_timers : timers a = timers b;
  same_display : Forall2 same_frame (displayArea a) (displayArea b)
}.

(** A session in which no markup has come in: the two scripts agree on the
    log, the input field and the timers, no image is loading, and the input
    field and the texts the timers hold are text. *)
Record text_session (a : chat) (d : Part000.document) : Prop := {
  session_same : same_chat a (Part000.script d);
  session_idle : Part000.loading d = [];
  session_input : is_text (inputField_value a) = true;
  session_timers :
    Forall (fun t => is_text (userText_captured t) = true) (timers a)
}.

(** ** Reading the page *)

(** What a block built by [src/script.js] shows: the text of its [strong]
    child and the data of its text node. *)
Definition shown_label (n : node) : option jsstring :=
  match n with
  | Element _ _ (ChildNodes [Element _ _ (ChildNodes [Text l]); Text _; _]) =>
      Some l
  | _ => None
  end.

Definition shown_text (n : node) : option jsstring :=
  match n with
  | Element _ _ (ChildNodes [_; Text t; _]) => Some t
  | _ => None
  end.

(** A block put together from elements and text nodes alone, none of its
    content having gone through the markup parser: a [div] whose children
    are a [strong] element, a text node and a [small] element, the two
    elements holding one text node each. *)
Definition built_from_nodes (n : node) : bool :=
  match n with
  | Element block _ (ChildNodes [Element label _ (ChildNodes [Text _]); Text _;
                                 Element stamp _ (ChildNodes [Text _])]) =>
      String.eqb block "div" && String.eqb label "strong"
      && String.eqb stamp "small"
  | _ => false
  end.

(** [el.style.textAlign]: the value last assigned to the property. *)
Definition textAlign (n : node) : option string :=
  match n with
  | Element _ style _ =>
      option_map snd
        (find (fun kv => String.eqb (fst kv) "textAlign") (rev style))
  | Text _ => None
  end.

(** The messages of the log entries of one role, in log order. *)
Definition messages_of (r : jsstring) (log : list entry) : list jsval :=
  map message (filter (fun e => strict_eq (role e) r) log).

(** A timer event whose draw is one [Math.random()] can return: at least 0
    and less than 1. *)
Definition draw_in_range (e : event) : Prop :=
  match e with
  | TimerFires x _ => (0 <= x)%Q /\ (x < 1)%Q
  | _ => True
  end.

(** A log entry as the chat script writes them: a user entry holding a
    non-empty string that [trim] leaves as it is, or a bot entry. *)
Definition well_formed_entry (e : entry) : Prop :=
  (role e = lit "user"
   /\ exists text, message e = str text /\ text <> [] /\ trim text = text)
  \/ role e = lit "bot".

(** A code unit [JSON.stringify] copies as it is: not a control character,
    not the double quote, not the backslash, not a surrogate. *)
Definition isPlain (c : code_unit) : bool :=
  negb (c <? 32)%N && negb (c =? 34)%N && negb (c =? 92)%N
  && negb (Report.isLeadingSurrogate c) && negb (Report.isTrailingSurrogate c).

(** ** Sample inputs *)

Module Sample.

(** The chat page just loaded, with [  hi ] typed into the input field. *)
Definition typed_hi : chat := Script.init (lit "10:00:00") (lit "  hi ").

(** The chat page just loaded, the input field holding a space, a tab, a
    no-break space and a line feed. *)
Definition typed_blank : chat :=
  Script.init (lit "10:00:00") [32; 9; 160; 10]%N.

(** The report page with a question typed and nothing done yet. *)
Definition asked : Report.page :=
  {| Report.statusMessage_textContent := empty;
     Report.result_innerHTML := empty;
     Report.button_disabled := false;
     Report.questionBox_value := lit " Why is the sky blue? ";
     Report.trace := [] |}.

(** The report page showing an earlier result, the question box blank. *)
Definition not_asked : Report.page :=
  {| Report.statusMessage_textContent := lit "Report generated successfully!";
     Report.result_innerHTML := lit "<p>earlier</p>";
     Report.button_disabled := false;
     Report.questionBox_value := lit "   ";
     Report.trace := [] |}.

Definition internal_server_error : Report.fetch_result :=
  Report.Responded
    {| Report.status := 500;
       Report.statusText := lit "Internal Server Error";
       Report.json := Report.JsonRejects (lit "Unexpected end of JSON input") |}.

Definition report_ready : Report.fetch_result :=
  Report.Responded
    {| Report.status := 200;
       Report.statusText := lit "OK";
       Report.json := Report.JsonValue (str (lit "Q")) (str (lit "U")) |}.

(** The request could not be made. *)
Definition offline : Report.fetch_result :=
  Report.NetworkError (lit "Failed to fetch").

(** A response of status 201 whose JSON body is an object without the two
    properties the page reads. *)
Definition created_without_fields : Report.response :=
  {| Report.status := 201;
     Report.statusText := lit "Created";
     Report.json := Report.JsonValue undefined undefined |}.



(** A message that is markup: an image that cannot load, with a handler
    for the failure. *)
Definition injection : jsstring :=
  lit "<img src=x onerror=" ++ dquote ++ lit "conversationHistory.length=0"
  ++ dquote ++ lit ">".

(** The message is typed and sent. *)
Definition injected_send : list event :=
  [UserEdits injection; Click (lit "10:00:05")].

(** Two messages sent before the first reply, then both replies. *)
Definition two_sends : list event :=
  [Click (lit "10:00:05"); UserEdits (lit "again");
   KeyPress (lit "Enter") (lit "10:00:06");
   TimerFires (1 # 8)%Q (lit "10:00:07");
   TimerFires (7 # 8)%Q (lit "10:00:08")].

End Sample.

(** * Properties *)

(** ** Strings *)

Section StringFacts.

Lemma strict_eq_refl (s : jsstring) : strict_eq s s = true.
Proof.
  induction s as [|c s IH]; simpl; [reflexivity|].
  now rewrite N.eqb_refl, IH.
Qed.

Lemma strict_eq_true (a b : jsstring) : strict_eq a b = true <-> a = b.
Proof.
  split; [|intros ->; apply strict_eq_refl].
  revert b; induction a as [|x a IH]; intros [|y b]; simpl; try discriminate.
  - reflexivity.
  - intros H. apply andb_true_iff in H as [Hx Hr].
    apply N.eqb_eq in Hx. f_equal; auto.
Qed.

Lemma strict_eq_empty (s : jsstring) :
  strict_eq s empty = true <-> s = [].
Proof. apply strict_eq_true. Qed.

Lemma strict_eq_nonempty (s : jsstring) :
  s <> [] -> strict_eq s empty = false.
Proof.
  intros H. destruct (strict_eq s empty) eqn:E; [|reflexivity].
  apply strict_eq_empty in E. contradiction.
Qed.

Lemma trimStart_whitespace (s : jsstring) :
  forallb isWhiteSpace s = true -> trimStart s = [].
Proof.
  induction s as [|c s IH]; simpl; [reflexivity|].
  intros H. apply andb_true_iff in H as [Hc Hs].
  rewrite Hc. auto.
Qed.

Lemma trim_whitespace (s : jsstring) :
  forallb isWhiteSpace s = true -> trim s = [].
Proof.
  intros H. unfold trim. now rewrite (trimStart_whitespace s H).
Qed.

End StringFacts.

(** ** The random template index *)

Section RandomIndex.

Open Scope Q_scope.

(** [Math.floor(Math.random() * 4)] is one of 0, 1, 2, 3. *)
Lemma floor_scaled_range (x : Q) (n : nat) :
  0 <= x -> x < 1 -> (0 < n)%nat ->
  (0 <= floor_scaled x n < Z.of_nat n)%Z.
Proof.
  intros H0 H1 Hn. unfold floor_scaled.
  set (k := inject_Z (Z.of_nat n)).
  assert (Hk : 0 < k).
  { unfold k. change 0 with (inject_Z 0). rewrite <- Zlt_Qlt. lia. }
  split.
  - change 0%Z with (Qfloor 0). apply Qfloor_resp_le.
    apply Qmult_le_0_compat; [assumption | now apply Qlt_le_weak].
  - rewrite Zlt_Qlt. apply Qle_lt_trans with (x * k); [apply Qfloor_le|].
    fold k. setoid_replace k with (1 * k) at 2 by ring.
    now apply Qmult_lt_compat_r.
Qed.

End RandomIndex.

(** ** The chat widget of src/script.js *)

Section ChatLog.

Lemma handleUserMessage_blank (now : jsstring) (st : chat) :
  trim (inputField_value st) = [] -> Script.handleUserMessage now st = st.
Proof.
  intros H. unfold Script.handleUserMessage.
  now rewrite H.
Qed.

Lemma handleUserMessage_sends (now : jsstring) (st : chat) :
  trim (inputField_value st) <> [] ->
  Script.handleUserMessage now st =
  let userText := trim (inputField_value st) in
  setTimeout userText 500
    (set_inputField_value empty
       (Script.appendMessageToDisplay now (lit "user") (str userText)
          (push_history {| role := lit "user"; message := str userText |} st))).
Proof.
  intros H. unfold Script.handleUserMessage.
  now rewrite (strict_eq_nonempty _ H).
Qed.

Lemma botReplyCallback_history (x : Q) (now userText : jsstring) (st : chat) :
  conversationHistory (Script.botReplyCallback x now userText st) =
  conversationHistory st
  ++ [{| role := lit "bot"; message := Script.generateBotResponse x userText |}].
Proof. reflexivity. Qed.

(** Every listener and every timer callback leaves the log it found as a
    prefix of the log it leaves. *)
Lemma step_extends_history (st : chat) (e : event) :
  exists added,
    conversationHistory (Script.step st e) = conversationHistory st ++ added.
Proof.
  assert (Hsend : forall now, exists added,
    conversationHistory (Script.handleUserMessage now st)
    = conversationHistory st ++ added).
  { intros now. unfold Script.handleUserMessage.
    destruct (strict_eq _ _).
    - exists []. now rewrite app_nil_r.
    - eexists. reflexivity. }
  destruct e as [v | now | key now | x now]; simpl.
  - exists []. now rewrite app_nil_r.
  - apply Hsend.
  - destruct (strict_eq key _); [apply Hsend|].
    exists []. now rewrite app_nil_r.
  - destruct (timers st) as [|t rest].
    + exists []. now rewrite app_nil_r.
    + eexists. reflexivity.
Qed.

Lemma run_extends_history (es : list event) : forall st : chat,
  exists added,
    conversationHistory (Script.run st es) = conversationHistory st ++ added.
Proof.
  induction es as [|e es IH]; intros st.
  - exists []. simpl. now rewrite app_nil_r.
  - change (Script.run st (e :: es)) with (Script.run (Script.step st e) es).
    destruct (IH (Script.step st e)) as [later Hlater].
    destruct (step_extends_history st e) as [first Hfirst].
    exists (first ++ later).
    now rewrite Hlater, Hfirst, app_assoc.
Qed.

Lemma run_app (st : chat) (es1 es2 : list event) :
  Script.run st (es1 ++ es2) = Script.run (Script.run st es1) es2.
Proof. apply fold_left_app. Qed.

(** Every step adds one block to the display for each entry it adds to the
    log. *)
Lemma step_display_tracks_history (st : chat) (e : event) (n : nat) :
  List.length (displayArea st) = List.length (conversationHistory st) + n ->
  List.length (displayArea (Script.step st e))
  = List.length (conversationHistory (Script.step st e)) + n.
Proof.
  intros H.
  assert (Hsend : forall now,
    List.length (displayArea (Script.handleUserMessage now st))
    = List.length (conversationHistory (Script.handleUserMessage now st)) + n).
  { intros now. unfold Script.handleUserMessage.
    destruct (strict_eq _ _); [assumption|].
    simpl. rewrite !length_app. simpl. lia. }
  destruct e as [v | now | key now | x now]; simpl.
  - assumption.
  - apply Hsend.
  - destruct (strict_eq key _); [apply Hsend | assumption].
  - destruct (timers st) as [|t rest]; [assumption|].
    simpl. rewrite !length_app. simpl. lia.
Qed.

End ChatLog.

Section ChatClaims.

(** C2.  When the trimmed input is not empty, one call of
    [handleUserMessage] appends exactly one user entry to the log at once and
    registers exactly one callback, with a delay of 500; when that callback
    runs it appends exactly one bot entry; with nothing else happening in
    between, the log is then the old log followed by these two entries, two
    entries longer than before the call. *)
Theorem handleUserMessage_appends_user_then_bot (now : jsstring) (st : chat) :
  trim (inputField_value st) <> [] ->
  let userText := trim (inputField_value st) in
  let user := {| role := lit "user"; message := str userText |} in
  let sent := Script.handleUserMessage now st in
  conversationHistory sent = conversationHistory st ++ [user]
  /\ timers sent
     = timers st ++ [{| delay := 500; userText_captured := userText |}]
  /\ forall (x : Q) (later : jsstring),
       let bot := {| role := lit "bot";
                     message := Script.generateBotResponse x userText |} in
       let replied := Script.botReplyCallback x later userText sent in
       conversationHistory replied = conversationHistory st ++ [user; bot]
       /\ List.length (conversationHistory replied)
          = List.length (conversationHistory st) + 2
       /\ (timers st = [] ->
           conversationHistory (Script.run st [Click now; TimerFires x later])
           = conversationHistory st ++ [user; bot]).
Proof.
  intros Hne userText user sent.
  assert (Hsent : sent
    = setTimeout userText 500
        (set_inputField_value empty
           (Script.appendMessageToDisplay now (lit "user") (str userText)
              (push_history user st)))).
  { apply (handleUserMessage_sends now st Hne). }
  repeat split.
  - now rewrite Hsent.
  - now rewrite Hsent.
  - rewrite botReplyCallback_history, Hsent. simpl.
    now rewrite <- app_assoc.
  - rewrite botReplyCallback_history, Hsent. simpl.
    rewrite !length_app. simpl. lia.
  - intros Hidle. unfold Script.run. simpl. fold sent.
    assert (Htimers : timers sent
      = [{| delay := 500; userText_captured := userText |}]).
    { rewrite Hsent. simpl. now rewrite Hidle. }
    rewrite Htimers. simpl. rewrite Hsent. simpl.
    now rewrite <- app_assoc.
Qed.

Lemma handleUserMessage_appends_user_then_bot_witness :
  conversationHistory (Script.handleUserMessage (lit "10:00:05") Sample.typed_hi)
  = [{| role := lit "user"; message := str (lit "hi") |}]
  /\ List.length
       (conversationHistory
          (Script.run Sample.typed_hi
             [Click (lit "10:00:05"); TimerFires (1 # 2)%Q (lit "10:00:06")]))
     = 2.
Proof.
  assert (Hne : trim (inputField_value Sample.typed_hi) <> [])
    by (vm_compute; discriminate).
  destruct (handleUserMessage_appends_user_then_bot
              (lit "10:00:05") Sample.typed_hi Hne)
    as [Huser [_ Hbot]].
  split; [exact Huser|].
  destruct (Hbot (1 # 2)%Q (lit "10:00:06")) as [_ [_ Hrun]].
  rewrite (Hrun eq_refl). reflexivity.
Defined.

(** C4.  When the input is empty or holds white space only, a call of
    [handleUserMessage] changes nothing: the log and the children of the
    display are what they were, and no callback is registered. *)
Theorem handleUserMessage_ignores_blank_input (now : jsstring) (st : chat) :
  forallb isWhiteSpace (inputField_value st) = true ->
  Script.handleUserMessage now st = st
  /\ conversationHistory (Script.handleUserMessage now st)
     = conversationHistory st
  /\ displayArea (Script.handleUserMessage now st) = displayArea st
  /\ timers (Script.handleUserMessage now st) = timers st.
Proof.
  intros Hblank.
  assert (H : Script.handleUserMessage now st = st).
  { apply handleUserMessage_blank. now apply trim_whitespace. }
  now rewrite H.
Qed.

Lemma handleUserMessage_ignores_blank_input_witness :
  Script.handleUserMessage (lit "10:00:05") Sample.typed_blank
  = Sample.typed_blank.
Proof.
  apply (handleUserMessage_ignores_blank_input
           (lit "10:00:05") Sample.typed_blank).
  reflexivity.
Defined.

(** C5.  Each of the four reply templates holds the user's text between
    double quotes, and for every draw of [Math.random()], a number from 0
    up to but not including 1, [generateBotResponse] returns one of them: a
    string that includes the exact user text surrounded by double quotes. *)
Theorem generateBotResponse_quotes_user_text (userMessage : jsstring) :
  List.length (Script.responses userMessage) = 4
  /\ Forall (fun reply => includes reply (dquote ++ userMessage ++ dquote))
            (Script.responses userMessage)
  /\ forall x : Q,
       (0 <= x)%Q -> (x < 1)%Q ->
       exists reply,
         Script.generateBotResponse x userMessage = str reply
         /\ In reply (Script.responses userMessage)
         /\ includes reply (dquote ++ userMessage ++ dquote).
Proof.
  assert (Hall : Forall
    (fun reply => includes reply (dquote ++ userMessage ++ dquote))
    (Script.responses userMessage)).
  { unfold Script.responses.
    repeat apply Forall_cons; try apply Forall_nil;
      match goal with
      | |- includes (?pre ++ _) _ => exists pre, []
      end; now rewrite app_nil_r. }
  split; [reflexivity|]. split; [exact Hall|].
  intros x H0 H1.
  unfold Script.generateBotResponse, element_at.
  destruct (floor_scaled_range x
              (List.length (Script.responses userMessage)) H0 H1)
    as [Hlo Hhi]; [simpl; lia|].
  destruct (Z.ltb_spec (floor_scaled x
              (List.length (Script.responses userMessage))) 0) as [Hneg|_];
    [lia|].
  destruct (nth_error (Script.responses userMessage)
              (Z.to_nat (floor_scaled x
                 (List.length (Script.responses userMessage)))))
    as [reply|] eqn:Hnth.
  - exists reply. split; [reflexivity|].
    apply nth_error_In in Hnth. split; [exact Hnth|].
    rewrite Forall_forall in Hall. now apply Hall.
  - apply nth_error_None in Hnth. lia.
Qed.

Lemma generateBotResponse_quotes_user_text_witness :
  exists reply,
    Script.generateBotResponse (3 # 4)%Q (lit "hi") = str reply
    /\ In reply (Script.responses (lit "hi"))
    /\ includes reply (dquote ++ lit "hi" ++ dquote).
Proof.
  destruct (generateBotResponse_quotes_user_text (lit "hi")) as [_ [_ H]].
  apply (H (3 # 4)%Q).
  - vm_compute. discriminate.
  - vm_compute. reflexivity.
Defined.

(** C6.  The log is append-only.  [handleUserMessage], the delayed bot-reply
    callback, and more generally every sequence of events leave the entries
    that were in the log in place and in order, and at most add entries at
    the end: the log at any earlier moment of a run is a prefix of the log at
    any later moment, and its length never decreases. *)
Theorem conversationHistory_append_only (st : chat) :
  (forall now, exists added,
     conversationHistory (Script.handleUserMessage now st)
     = conversationHistory st ++ added)
  /\ (forall x now userText, exists added,
       conversationHistory (Script.botReplyCallback x now userText st)
       = conversationHistory st ++ added)
  /\ (forall es later, exists added,
       conversationHistory (Script.run st (es ++ later))
       = conversationHistory (Script.run st es) ++ added)
  /\ (forall es later,
       List.length (conversationHistory (Script.run st es))
       <= List.length (conversationHistory (Script.run st (es ++ later)))).
Proof.
  repeat split.
  - intros now. apply (step_extends_history st (Click now)).
  - intros x now userText. eexists. apply botReplyCallback_history.
  - intros es later. rewrite run_app. apply run_extends_history.
  - intros es later. rewrite run_app.
    destruct (run_extends_history later (Script.run st es)) as [added H].
    rewrite H, length_app. lia.
Qed.

(** C9.  Loading the script renders the welcome message without logging it:
    the log starts empty and the display starts with one block, and after
    every sequence of events the display holds one block more than the log
    has entries. *)
Theorem welcome_displayed_not_logged (now value : jsstring) :
  conversationHistory (Script.init now value) = []
  /\ List.length (displayArea (Script.init now value)) = 1
  /\ (exists block,
       displayArea (Script.init now value) = [block]
       /\ block = Element "div" (block_style (lit "bot"))
                    (ChildNodes
                       [labelled "strong" (lit "bot:");
                        Text (lit " " ++ welcome ++ lit " ");
                        labelled "small" (lit "(" ++ now ++ lit ")")]))
  /\ forall es,
       List.length (displayArea (Script.run (Script.init now value) es))
       = List.length (conversationHistory (Script.run (Script.init now value) es))
         + 1.
Proof.
  split; [reflexivity|]. split; [reflexivity|].
  split; [eexists; split; reflexivity|].
  intros es.
  assert (Hinv : forall st : chat,
    List.length (displayArea st) = List.length (conversationHistory st) + 1 ->
    List.length (displayArea (Script.run st es))
    = List.length (conversationHistory (Script.run st es)) + 1).
  { induction es as [|e es IH]; intros st H; [exact H|].
    change (Script.run st (e :: es)) with (Script.run (Script.step st e) es).
    apply IH. now apply step_display_tracks_history. }
  apply Hinv. reflexivity.
Qed.

End ChatClaims.

(** ** The report form of src/unnamed/part_001 *)

Section ReportForm.

Import Report.

Ltac run_handler :=
  unfold after_click, onClick, bind, get_questionBox_value, alert, perform,
    try_catch_finally, fetch, response_json, data_question,
    data_document_url, set_statusMessage_textContent, set_result_innerHTML,
    set_button_disabled, throw, ret;
  cbn beta iota zeta delta [fst snd not_string negb
    statusMessage_textContent result_innerHTML button_disabled
    questionBox_value trace].

Lemma onClick_blank (network : fetch_result) (p : page) :
  trim (questionBox_value p) = [] ->
  after_click network p =
  {| statusMessage_textContent := statusMessage_textContent p;
     result_innerHTML := result_innerHTML p;
     button_disabled := button_disabled p;
     questionBox_value := questionBox_value p;
     trace := trace p ++ [Alert (lit "Please enter a research question.")] |}.
Proof.
  intros H. run_handler. rewrite H. reflexivity.
Qed.

(** Whatever the network answers, a submitted question sends one request
    and leaves the button enabled and the question box as it was. *)
Lemma onClick_submitted (network : fetch_result) (p : page) :
  trim (questionBox_value p) <> [] ->
  trace (after_click network p)
  = trace p
    ++ [Fetch {| url := API_ENDPOINT;
                 method := lit "POST";
                 headers := [(lit "Content-Type", lit "application/json")];
                 body := JSON_stringify
                           [(lit "question", trim (questionBox_value p))] |}]
  /\ button_disabled (after_click network p) = false
  /\ questionBox_value (after_click network p) = questionBox_value p.
Proof.
  intros H. run_handler.
  destruct (trim (questionBox_value p)) as [|c T]; [contradiction|].
  destruct network as [m | r]; run_handler; [now repeat split|].
  destruct (ok r); run_handler; [|now repeat split].
  destruct (json r); run_handler; now repeat split.
Qed.

(** A response outside the 200 range ends in the catch clause, with the
    message of the error thrown for it. *)
Lemma onClick_not_ok (r : response) (p : page) :
  trim (questionBox_value p) <> [] ->
  ok r = false ->
  statusMessage_textContent (after_click (Responded r) p)
  = lit "Error: " ++ (lit "Error: " ++ statusText r)
  /\ result_innerHTML (after_click (Responded r) p) = empty.
Proof.
  intros H Hok. run_handler.
  destruct (trim (questionBox_value p)) as [|c T]; [contradiction|].
  run_handler. rewrite Hok. run_handler. now split.
Qed.

(** A request that could not be made ends in the catch clause too, with the
    message of the rejection. *)
Lemma onClick_network_error (m : jsstring) (p : page) :
  trim (questionBox_value p) <> [] ->
  statusMessage_textContent (after_click (NetworkError m) p)
  = lit "Error: " ++ m.
Proof.
  intros H. run_handler.
  destruct (trim (questionBox_value p)) as [|c T]; [contradiction|].
  reflexivity.
Qed.

Lemma onClick_ok (r : response) (question document_url : jsval) (p : page) :
  trim (questionBox_value p) <> [] ->
  ok r = true ->
  json r = JsonValue question document_url ->
  statusMessage_textContent (after_click (Responded r) p)
  = lit "Report generated successfully!"
  /\ result_innerHTML (after_click (Responded r) p)
     = result_markup question document_url.
Proof.
  intros H Hok Hjson. run_handler.
  destruct (trim (questionBox_value p)) as [|c T]; [contradiction|].
  run_handler. rewrite Hok. run_handler. rewrite Hjson. now split.
Qed.

Lemma requests_of_app (es fs : list effect) :
  requests_of (es ++ fs) = requests_of es ++ requests_of fs.
Proof. apply flat_map_app. Qed.

Lemma alerts_of_app (es fs : list effect) :
  alerts_of (es ++ fs) = alerts_of es ++ alerts_of fs.
Proof. apply flat_map_app. Qed.

(** C1, at a response of status 500 with status text
    [Internal Server Error]: the handler leaves the button enabled, and the
    status region reads [Error: Error: Internal Server Error], the prefix
    twice, which is not [Error: ] followed by the status text. *)
Theorem status_500_shows_prefix_twice :
  let p := after_click Sample.internal_server_error Sample.asked in
  statusMessage_textContent p = lit "Error: Error: Internal Server Error"
  /\ statusMessage_textContent p <> lit "Error: " ++ lit "Internal Server Error"
  /\ button_disabled p = false.
Proof.
  split; [reflexivity|]. split; [|reflexivity].
  vm_compute. discriminate.
Qed.

(** C3.  When the trimmed question is empty the handler sends no request,
    shows one alert, and leaves the status region, the result region and the
    button as they were. *)
Theorem submitQuestion_rejects_empty (network : fetch_result) (p : page) :
  trim (questionBox_value p) = [] ->
  let p' := after_click network p in
  requests_of (trace p') = requests_of (trace p)
  /\ trace p' = trace p ++ [Alert (lit "Please enter a research question.")]
  /\ alerts_of (trace p')
     = alerts_of (trace p) ++ [lit "Please enter a research question."]
  /\ statusMessage_textContent p' = statusMessage_textContent p
  /\ result_innerHTML p' = result_innerHTML p
  /\ button_disabled p' = button_disabled p.
Proof.
  intros H p'. unfold p'. rewrite (onClick_blank network p H).
  cbn [trace statusMessage_textContent result_innerHTML button_disabled].
  rewrite requests_of_app, alerts_of_app.
  repeat split. apply app_nil_r.
Qed.

Lemma submitQuestion_rejects_empty_witness :
  requests_of (trace (after_click Sample.report_ready Sample.not_asked)) = []
  /\ button_disabled (after_click Sample.report_ready Sample.not_asked) = false.
Proof.
  assert (H : trim (questionBox_value Sample.not_asked) = [])
    by reflexivity.
  destruct (submitQuestion_rejects_empty Sample.report_ready Sample.not_asked H)
    as [Hreq [_ [_ [_ [_ Hbutton]]]]].
  split; [exact Hreq | exact Hbutton].
Defined.

(** ** What the parser makes of text *)

Section Markup.

Import Html.

Lemma current_with_current (cs : list hnode) (b : builder) :
  current (with_current cs b) = cs.
Proof. destruct b as [r [|o below]]; reflexivity. Qed.

Lemma with_current_twice (cs cs' : list hnode) (b : builder) :
  with_current cs' (with_current cs b) = with_current cs' b.
Proof. destruct b as [r [|o below]]; reflexivity. Qed.

Lemma isTextUnit_data (c : code_unit) :
  isTextUnit c = true -> tstep Data c = Some (Data, [Character c]).
Proof.
  unfold isTextUnit, tstep, data. intros H. apply negb_true_iff in H.
  repeat (apply orb_false_iff in H as [H ?]).
  match goal with
  | H1 : (c =? 0)%N = false, H2 : (c =? 13)%N = false,
    H3 : (c =? 38)%N = false, H4 : (c =? 60)%N = false |- _ =>
      now rewrite H1, H2, H3, H4
  end.
Qed.

(** The input may be cut anywhere: the parser goes on from where the first
    part left it. *)
Lemma advance_app (x y : jsstring) : forall (s : tstate) (b : builder),
  advance s b (x ++ y)
  = match advance s b x with
    | Some (s', b') => advance s' b' y
    | None => None
    end.
Proof.
  induction x as [|c x IH]; intros s b; [reflexivity|].
  cbn [app advance]. destruct (tstep s c) as [[s' emitted]|]; [|reflexivity].
  destruct (feed_all emitted b) as [b'|]; [apply IH | reflexivity].
Qed.

(** A run of text in the data state goes to the current node as it is. *)
Lemma advance_text (t : jsstring) : forall b : builder,
  forallb isTextUnit t = true ->
  advance Data b t
  = Some (Data, with_current (append_text t (current b)) b).
Proof.
  induction t as [|c t IH]; intros b H.
  - cbn [advance]. do 2 f_equal.
    destruct b as [r [|o below]]; unfold with_current, current, append_text;
      simpl.
    + destruct r as [|[d|n a ch] r]; try reflexivity. now rewrite app_nil_r.
    + destruct o as [n a [|[d|n' a' ch] cs]]; simpl; try reflexivity.
      now rewrite app_nil_r.
  - simpl in H. apply andb_true_iff in H as [Hc Ht].
    cbn [advance]. rewrite (isTextUnit_data c Hc). cbn [feed_all feed].
    rewrite (IH _ Ht). do 2 f_equal.
    unfold insert_character. rewrite current_with_current, with_current_twice.
    f_equal. unfold append_text.
    destruct (current b) as [|[d|n a ch] cs]; try reflexivity.
    now rewrite <- app_assoc.
Qed.

Lemma isValueUnit_step (tg : tag) (name value : jsstring) (c : code_unit) :
  isValueUnit c = true ->
  tstep (AttributeValueDoubleQuoted tg name value) c
  = Some (AttributeValueDoubleQuoted tg name (value ++ [c]), []).
Proof.
  unfold isValueUnit, tstep. intros H. apply negb_true_iff in H.
  repeat (apply orb_false_iff in H as [H ?]).
  match goal with
  | H1 : (c =? 0)%N = false, H2 : (c =? 13)%N = false,
    H3 : (c =? 38)%N = false, H4 : (c =? 34)%N = false |- _ =>
      now rewrite H1, H2, H3, H4
  end.
Qed.

(** A run of text between the double quotes of an attribute goes to its
    value as it is. *)
Lemma advance_value (u : jsstring) (tg : tag) (name : jsstring)
    (b : builder) : forall value : jsstring,
  forallb isValueUnit u = true ->
  advance (AttributeValueDoubleQuoted tg name value) b u
  = Some (AttributeValueDoubleQuoted tg name (value ++ u), b).
Proof.
  induction u as [|c u IH]; intros value H.
  - now rewrite app_nil_r.
  - simpl in H. apply andb_true_iff in H as [Hc Hu].
    cbn [advance]. rewrite (isValueUnit_step tg name value c Hc).
    cbn [feed_all]. rewrite (IH _ Hu). now rewrite <- app_assoc.
Qed.

(** The parser on a string cut into pieces: a piece that is given is
    computed, a piece that is text or the text of a value goes in as it
    is. *)
Ltac advance_piece :=
  rewrite advance_app;
  match goal with
  | |- context [advance Data ?b ?t] =>
      first [ rewrite (advance_text t b) by assumption
            | let r := eval vm_compute in (advance Data b t) in
              replace (advance Data b t) with r
                by (vm_compute; reflexivity) ]
  | |- context [advance (AttributeValueDoubleQuoted ?tg ?n ?v) ?b ?u] =>
      first [ rewrite (advance_value u tg n b v) by assumption
            | let r := eval vm_compute in
                         (advance (AttributeValueDoubleQuoted tg n v) b u) in
              replace (advance (AttributeValueDoubleQuoted tg n v) b u) with r
                by (vm_compute; reflexivity) ]
  | |- context [advance ?s ?b ?t] =>
      let r := eval vm_compute in (advance s b t) in
      replace (advance s b t) with r by (vm_compute; reflexivity)
  end;
  cbv beta iota.


(** The tree of the markup of a chat block of [src/unnamed/part_000], when
    the sender, the message and the time are text. *)
Lemma parse_block_markup (sender content now : jsstring) :
  forallb isTextUnit sender = true ->
  forallb isTextUnit content = true ->
  forallb isTextUnit now = true ->
  parse_fragment (lit "<strong>" ++ sender ++ lit ":</strong> " ++ content
                  ++ lit " <small>(" ++ now ++ lit ")</small>")
  = Some [HElement (lit "strong") [] [HText (sender ++ lit ":")];
          HText (lit " " ++ content ++ lit " ");
          HElement (lit "small") [] [HText (lit "(" ++ now ++ lit ")")]].
Proof.
  intros Hs Hc Hn. unfold parse_fragment.
  destruct sender as [|c sender]; do 6 advance_piece; vm_compute; reflexivity.
Qed.

End Markup.




(** C8.  When the trimmed question [T] is not empty the handler sends
    exactly one request, whatever the network answers: a POST to
    [API_ENDPOINT] with the header [Content-Type: application/json] whose
    body is [JSON.stringify] of the object [{ question: T }]; no alert is
    shown. *)
Theorem submitQuestion_posts_once (network : fetch_result) (p : page) :
  trim (questionBox_value p) <> [] ->
  let T := trim (questionBox_value p) in
  let sent :=
    {| url := API_ENDPOINT;
       method := lit "POST";
       headers := [(lit "Content-Type", lit "application/json")];
       body := JSON_stringify [(lit "question", T)] |} in
  trace (after_click network p) = trace p ++ [Fetch sent]
  /\ requests_of (trace (after_click network p))
     = requests_of (trace p) ++ [sent]
  /\ alerts_of (trace (after_click network p)) = alerts_of (trace p)
  /\ body sent
     = lit "{" ++ quoteJSONString (lit "question") ++ lit ":"
       ++ quoteJSONString T ++ lit "}".
Proof.
  intros H T sent.
  destruct (onClick_submitted network p H) as [Htrace _].
  fold T in Htrace. fold sent in Htrace.
  rewrite Htrace, requests_of_app, alerts_of_app.
  repeat split. apply app_nil_r.
Qed.

Lemma submitQuestion_posts_once_witness :
  requests_of (trace (after_click Sample.internal_server_error Sample.asked))
  = [{| url := API_ENDPOINT;
        method := lit "POST";
        headers := [(lit "Content-Type", lit "application/json")];
        body := lit "{" ++ dquote ++ lit "question" ++ dquote ++ lit ":"
                ++ dquote ++ lit "Why is the sky blue?" ++ dquote
                ++ lit "}" |}].
Proof.
  assert (H : trim (questionBox_value Sample.asked) <> [])
    by (vm_compute; discriminate).
  destruct (submitQuestion_posts_once Sample.internal_server_error
              Sample.asked H) as [_ [Hreq _]].
  exact Hreq.
Defined.

End ReportForm.

(** ** What [trim] removes and what it keeps *)

Section TrimFacts.

Lemma trimStart_split (s : jsstring) :
  exists l, s = l ++ trimStart s /\ forallb isWhiteSpace l = true.
Proof.
  induction s as [|c s [l [Hs Hl]]]; [now exists []|].
  simpl. destruct (isWhiteSpace c) eqn:Hc.
  - exists (c :: l). simpl. rewrite Hc, Hl. split; [now f_equal | reflexivity].
  - now exists [].
Qed.

Lemma trimStart_head (s : jsstring) :
  match trimStart s with
  | [] => True
  | c :: _ => isWhiteSpace c = false
  end.
Proof.
  induction s as [|c s IH]; simpl; [exact I|].
  destruct (isWhiteSpace c) eqn:Hc; [exact IH | exact Hc].
Qed.

Lemma trimStart_fixed (c : code_unit) (s : jsstring) :
  isWhiteSpace c = false -> trimStart (c :: s) = c :: s.
Proof. intros H. simpl. now rewrite H. Qed.

Lemma trimStart_idempotent (s : jsstring) :
  trimStart (trimStart s) = trimStart s.
Proof.
  pose proof (trimStart_head s) as H.
  destruct (trimStart s) as [|c t]; [reflexivity|].
  now apply trimStart_fixed.
Qed.

(** White space is dropped from the front only up to the first character
    that is not white space. *)
Lemma trimStart_app_kept (a b : jsstring) (c : code_unit) :
  isWhiteSpace c = false ->
  trimStart (a ++ c :: b) = trimStart a ++ c :: b.
Proof.
  intros Hc. induction a as [|x a IH]; simpl.
  - now rewrite Hc.
  - destruct (isWhiteSpace x); [exact IH | reflexivity].
Qed.

Lemma forallb_rev (f : code_unit -> bool) (l : jsstring) :
  forallb f (rev l) = forallb f l.
Proof.
  induction l as [|x l IH]; [reflexivity|].
  simpl. rewrite forallb_app, IH. simpl.
  rewrite andb_true_r. apply andb_comm.
Qed.

Lemma trimEnd_split (s : jsstring) :
  exists r, s = trimEnd s ++ r /\ forallb isWhiteSpace r = true.
Proof.
  destruct (trimStart_split (rev s)) as [l [Hs Hl]].
  exists (rev l). split.
  - unfold trimEnd. rewrite <- rev_app_distr, <- Hs. symmetry. apply rev_involutive.
  - now rewrite forallb_rev.
Qed.

Lemma trimEnd_cons (c : code_unit) (s : jsstring) :
  isWhiteSpace c = false -> trimEnd (c :: s) = c :: trimEnd s.
Proof.
  intros Hc. unfold trimEnd. simpl rev at 2.
  rewrite (trimStart_app_kept (rev s) [] c Hc), rev_app_distr.
  reflexivity.
Qed.

Lemma trimEnd_idempotent (s : jsstring) : trimEnd (trimEnd s) = trimEnd s.
Proof.
  unfold trimEnd. now rewrite rev_involutive, trimStart_idempotent.
Qed.

Lemma trimEnd_last (s : jsstring) :
  match rev (trimEnd s) with
  | [] => True
  | c :: _ => isWhiteSpace c = false
  end.
Proof.
  unfold trimEnd. rewrite rev_involutive. apply trimStart_head.
Qed.

(** The trimmed string with what was cut off at either end. *)
Lemma trim_split (s : jsstring) :
  exists l r,
    s = l ++ trim s ++ r
    /\ forallb isWhiteSpace l = true /\ forallb isWhiteSpace r = true.
Proof.
  destruct (trimStart_split s) as [l [Hs Hl]].
  destruct (trimEnd_split (trimStart s)) as [r [Ht Hr]].
  exists l, r. unfold trim. now rewrite <- Ht.
Qed.

Lemma trim_head (s : jsstring) :
  match trim s with
  | [] => True
  | c :: _ => isWhiteSpace c = false
  end.
Proof.
  unfold trim. pose proof (trimStart_head s) as H.
  destruct (trimStart s) as [|c t]; [exact I|].
  now rewrite (trimEnd_cons c t H).
Qed.

Lemma trim_idempotent (s : jsstring) : trim (trim s) = trim s.
Proof.
  unfold trim. pose proof (trimStart_head s) as H.
  destruct (trimStart s) as [|c t]; [reflexivity|].
  rewrite (trimEnd_cons c t H), (trimStart_fixed c _ H).
  rewrite (trimEnd_cons c _ H). now rewrite trimEnd_idempotent.
Qed.

Lemma trim_empty_iff (s : jsstring) :
  trim s = [] <-> forallb isWhiteSpace s = true.
Proof.
  split; [|apply trim_whitespace].
  intros H. destruct (trim_split s) as [l [r [Hs [Hl Hr]]]].
  rewrite H in Hs. rewrite Hs. simpl. now rewrite forallb_app, Hl, Hr.
Qed.

End TrimFacts.

(** ** More on the chat widget of src/script.js *)

Section ChatInput.

(** X1.  [handleUserMessage] is a no-op exactly on blank input: it returns the
    state it was given when the input field holds white space only, and
    changes the state as soon as one character is not white space. *)
Theorem handleUserMessage_noop_iff_blank (now : jsstring) (st : chat) :
  Script.handleUserMessage now st = st
  <-> forallb isWhiteSpace (inputField_value st) = true.
Proof.
  split.
  - intros Hsame. apply trim_empty_iff.
    destruct (trim (inputField_value st)) as [|c t] eqn:Htrim; [reflexivity|].
    assert (Hne : trim (inputField_value st) <> []) by (rewrite Htrim; discriminate).
    rewrite (handleUserMessage_sends now st Hne) in Hsame.
    apply (f_equal (fun s => List.length (conversationHistory s))) in Hsame.
    simpl in Hsame. rewrite length_app in Hsame. simpl in Hsame. lia.
  - intros Hblank. apply handleUserMessage_blank. now apply trim_whitespace.
Qed.

(** X2.  The text that is logged and handed to the reply callback is the input
    with white space cut off at both ends and nothing else: the input is
    white space, then the text, then white space, and the text begins and
    ends with a character that is not white space. *)
Theorem sent_text_is_input_without_outer_whitespace
    (now : jsstring) (st : chat) :
  forallb isWhiteSpace (inputField_value st) = false ->
  exists before text after first last,
    inputField_value st = before ++ text ++ after
    /\ forallb isWhiteSpace before = true
    /\ forallb isWhiteSpace after = true
    /\ hd_error text = Some first /\ isWhiteSpace first = false
    /\ hd_error (rev text) = Some last /\ isWhiteSpace last = false
    /\ conversationHistory (Script.handleUserMessage now st)
       = conversationHistory st
         ++ [{| role := lit "user"; message := str text |}]
    /\ timers (Script.handleUserMessage now st)
       = timers st ++ [{| delay := 500; userText_captured := text |}].
Proof.
  intros Hnot.
  assert (Hne : trim (inputField_value st) <> []).
  { intros H. apply trim_empty_iff in H. congruence. }
  destruct (trim_split (inputField_value st)) as [l [r [Hs [Hl Hr]]]].
  pose proof (trim_head (inputField_value st)) as Hhead.
  pose proof (trimEnd_last (trimStart (inputField_value st))) as Hlast.
  fold (trim (inputField_value st)) in Hlast.
  rewrite (handleUserMessage_sends now st Hne).
  destruct (trim (inputField_value st)) as [|c t] eqn:Htrim; [contradiction|].
  destruct (rev (c :: t)) as [|d u] eqn:Hrev.
  { apply (f_equal (@List.length _)) in Hrev. rewrite length_rev in Hrev.
    discriminate. }
  exists l, (c :: t), r, c, d. rewrite Hrev. simpl.
  repeat split; assumption.
Qed.

Lemma sent_text_is_input_without_outer_whitespace_witness :
  exists before text after first last,
    inputField_value Sample.typed_hi = before ++ text ++ after
    /\ forallb isWhiteSpace before = true
    /\ forallb isWhiteSpace after = true
    /\ hd_error text = Some first /\ isWhiteSpace first = false
    /\ hd_error (rev text) = Some last /\ isWhiteSpace last = false
    /\ conversationHistory
         (Script.handleUserMessage (lit "10:00:05") Sample.typed_hi)
       = conversationHistory Sample.typed_hi
         ++ [{| role := lit "user"; message := str text |}]
    /\ timers (Script.handleUserMessage (lit "10:00:05") Sample.typed_hi)
       = timers Sample.typed_hi
         ++ [{| delay := 500; userText_captured := text |}].
Proof.
  apply (sent_text_is_input_without_outer_whitespace
           (lit "10:00:05") Sample.typed_hi).
  reflexivity.
Defined.

(** X3.  A send empties the input field, so a second click right after the first
    one does nothing: clicking twice sends the message once. *)
Theorem second_click_sends_nothing (st : chat) (now again : jsstring) :
  Script.run st [Click now; Click again] = Script.run st [Click now].
Proof.
  unfold Script.run. simpl.
  destruct (trim (inputField_value st)) as [|c t] eqn:Htrim.
  - assert (H : Script.handleUserMessage now st = st)
      by now apply handleUserMessage_blank.
    rewrite H. now apply handleUserMessage_blank.
  - assert (Hne : trim (inputField_value st) <> [])
      by (rewrite Htrim; discriminate).
    apply handleUserMessage_blank.
    now rewrite (handleUserMessage_sends now st Hne).
Qed.

(** X5.  The reply callback and the user's typing do not interfere: the callback
    uses the text captured when the message was sent, not the input field,
    and it leaves the input field as it is.  An edit and a timer firing
    commute. *)
Theorem reply_commutes_with_typing
    (st : chat) (v : jsstring) (x : Q) (now : jsstring) :
  Script.run st [UserEdits v; TimerFires x now]
  = Script.run st [TimerFires x now; UserEdits v].
Proof.
  unfold Script.run. simpl.
  destruct (timers st) as [|t rest]; reflexivity.
Qed.

End ChatInput.

(** ** What every run of the chat script keeps *)

Section ChatRuns.

Lemma messages_of_app (r : jsstring) (a b : list entry) :
  messages_of r (a ++ b) = messages_of r a ++ messages_of r b.
Proof. unfold messages_of. now rewrite filter_app, map_app. Qed.

(** What every step keeps, every run keeps. *)
Lemma run_invariant (P : chat -> Prop) :
  (forall st e, P st -> P (Script.step st e)) ->
  forall es st, P st -> P (Script.run st es).
Proof.
  intros Hstep es. induction es as [|e es IH]; intros st H; [exact H|].
  change (Script.run st (e :: es)) with (Script.run (Script.step st e) es).
  now apply IH, Hstep.
Qed.

(** A step is an edit, a send that is ignored, a send that goes through, or
    the oldest timer firing. *)
Lemma step_cases (P : chat -> chat -> Prop) (st : chat) :
  P st st ->
  (forall v, P st (set_inputField_value v st)) ->
  (forall now,
     trim (inputField_value st) <> [] ->
     P st (setTimeout (trim (inputField_value st)) 500
             (set_inputField_value empty
                (Script.appendMessageToDisplay now (lit "user")
                   (str (trim (inputField_value st)))
                   (push_history
                      {| role := lit "user";
                         message := str (trim (inputField_value st)) |}
                      st))))) ->
  (forall x now t rest,
     timers st = t :: rest ->
     P st (Script.botReplyCallback x now (userText_captured t)
             (set_timers rest st))) ->
  forall e, P st (Script.step st e).
Proof.
  intros Hsame Hedit Hsend Hfire.
  assert (Hhandle : forall now, P st (Script.handleUserMessage now st)).
  { intros now.
    assert (Hcase : trim (inputField_value st) = []
                    \/ trim (inputField_value st) <> []).
    { destruct (trim (inputField_value st)); [now left | now right]. }
    destruct Hcase as [Hblank | Hne].
    - now rewrite handleUserMessage_blank.
    - rewrite (handleUserMessage_sends now st Hne). cbv zeta.
      now apply Hsend. }
  intros [v | now | key now | x now]; simpl.
  - apply Hedit.
  - apply Hhandle.
  - destruct (strict_eq key _); [apply Hhandle | exact Hsame].
  - destruct (timers st) as [|t rest] eqn:Ht; [exact Hsame|].
    now apply Hfire.
Qed.

(** X6.  Replies answer sends in order.  After every sequence of events on the
    freshly loaded page, the user messages of the log are the texts already
    answered followed by the texts of the pending timers, and the bot
    messages of the log are the replies to the answered texts, one each, in
    the same order; so there are as many user entries as bot entries and
    pending timers together. *)
Theorem replies_follow_sends_in_order
    (now value : jsstring) (es : list event) :
  let st := Script.run (Script.init now value) es in
  exists answered : list (Q * jsstring),
    messages_of (lit "user") (conversationHistory st)
    = map str (map snd answered ++ map userText_captured (timers st))
    /\ messages_of (lit "bot") (conversationHistory st)
       = map (fun xu => Script.generateBotResponse (fst xu) (snd xu)) answered
    /\ List.length (messages_of (lit "user") (conversationHistory st))
       = List.length (messages_of (lit "bot") (conversationHistory st))
         + List.length (timers st).
Proof.
  set (P := fun st : chat =>
    exists answered : list (Q * jsstring),
      messages_of (lit "user") (conversationHistory st)
      = map str (map snd answered ++ map userText_captured (timers st))
      /\ messages_of (lit "bot") (conversationHistory st)
         = map (fun xu => Script.generateBotResponse (fst xu) (snd xu))
               answered).
  assert (HP : P (Script.run (Script.init now value) es)).
  { apply run_invariant; [|now exists []].
    intros st e [answered [Hu Hb]]. apply (step_cases (fun _ st' => P st')).
    - now exists answered.
    - intros v. now exists answered.
    - intros now' Hne. exists answered. simpl.
      rewrite !messages_of_app, Hu, Hb. split.
      + rewrite !map_app. simpl. now rewrite <- !app_assoc.
      + apply app_nil_r.
    - intros x now' t rest Ht. exists (answered ++ [(x, userText_captured t)]).
      simpl. rewrite !messages_of_app, Hu, Hb, Ht. split.
      + rewrite !map_app. simpl. rewrite app_nil_r.
        now rewrite <- !app_assoc.
      + rewrite map_app. reflexivity. }
  destruct HP as [answered [Hu Hb]]. exists answered.
  split; [exact Hu|]. split; [exact Hb|].
  rewrite Hu, Hb, !length_map, length_app, !length_map. reflexivity.
Qed.

(** X7.  Every entry of the log is a user entry or a bot entry, and a user entry
    holds a non-empty text without white space at either end. *)
Theorem log_entries_well_formed (now value : jsstring) (es : list event) :
  Forall well_formed_entry
         (conversationHistory (Script.run (Script.init now value) es)).
Proof.
  apply (run_invariant
           (fun st => Forall well_formed_entry (conversationHistory st)));
    [|constructor].
  intros st e H.
  apply (step_cases
           (fun _ st' => Forall well_formed_entry (conversationHistory st'))).
  - assumption.
  - intros v. assumption.
  - intros now' Hne. simpl. apply Forall_app. split; [assumption|].
    constructor; [|constructor]. left. split; [reflexivity|].
    exists (trim (inputField_value st)).
    split; [reflexivity|]. split; [assumption | apply trim_idempotent].
  - intros x now' t rest Ht. simpl. apply Forall_app. split; [assumption|].
    constructor; [|constructor]. now right.
Qed.

Lemma generateBotResponse_defined (x : Q) (userMessage : jsstring) :
  (0 <= x)%Q -> (x < 1)%Q ->
  exists reply, Script.generateBotResponse x userMessage = str reply.
Proof.
  intros H0 H1. unfold Script.generateBotResponse, element_at.
  destruct (floor_scaled_range x
              (List.length (Script.responses userMessage)) H0 H1)
    as [Hlo Hhi]; [simpl; lia|].
  destruct (Z.ltb_spec (floor_scaled x
              (List.length (Script.responses userMessage))) 0) as [Hneg|_];
    [lia|].
  destruct (nth_error _ _) as [reply|] eqn:Hnth; [now exists reply|].
  apply nth_error_None in Hnth. lia.
Qed.

(** X8.  When every draw is one [Math.random()] can return, no entry of the log
    ever holds [undefined]: every message is a string. *)
Theorem log_messages_are_strings
    (now value : jsstring) (es : list event) :
  Forall draw_in_range es ->
  Forall (fun e => exists text, message e = str text)
         (conversationHistory (Script.run (Script.init now value) es)).
Proof.
  intros Hes.
  assert (Hgen : forall st,
    Forall (fun e => exists text, message e = str text)
           (conversationHistory st) ->
    Forall (fun e => exists text, message e = str text)
           (conversationHistory (Script.run st es))).
  { induction Hes as [|e es He Hes IH]; intros st H; [exact H|].
    change (Script.run st (e :: es)) with (Script.run (Script.step st e) es).
    apply IH.
    assert (Hhandle : forall now', Forall
      (fun e => exists text, message e = str text)
      (conversationHistory (Script.handleUserMessage now' st))).
    { intros now'. unfold Script.handleUserMessage.
      destruct (strict_eq _ _); [exact H|]. simpl.
      apply Forall_app. split; [exact H|].
      constructor; [|constructor]. now eexists. }
    destruct e as [v | now' | key now' | x now']; simpl.
    - exact H.
    - apply Hhandle.
    - destruct (strict_eq key _); [apply Hhandle | exact H].
    - destruct (timers st) as [|t rest]; [exact H|]. simpl.
      apply Forall_app. split; [exact H|].
      constructor; [|constructor]. simpl.
      destruct He as [H0 H1]. now apply generateBotResponse_defined. }
  apply Hgen. constructor.
Qed.

Lemma log_messages_are_strings_witness :
  Forall (fun e => exists text, message e = str text)
         (conversationHistory
            (Script.run (Script.init (lit "10:00:00") (lit "  hi "))
                        Sample.two_sends)).
Proof.
  apply (log_messages_are_strings (lit "10:00:00") (lit "  hi ")
           Sample.two_sends).
  unfold Sample.two_sends.
  repeat constructor; vm_compute; discriminate.
Defined.

(** X9.  The display shows the log.  After every sequence of events on the
    freshly loaded page, the blocks of the display are the welcome block
    followed by one block for each entry of the log, in log order: the
    label of the block is the role of the entry followed by a colon and its
    text is the message of the entry between two spaces. *)
Theorem display_shows_the_log (now value : jsstring) (es : list event) :
  let st := Script.run (Script.init now value) es in
  map shown_label (displayArea st)
  = Some (lit "bot:")
    :: map (fun e => Some (role e ++ lit ":")) (conversationHistory st)
  /\ map shown_text (displayArea st)
     = Some (lit " " ++ welcome ++ lit " ")
       :: map (fun e => Some (lit " " ++ toString (message e) ++ lit " "))
              (conversationHistory st).
Proof.
  apply (run_invariant (fun st =>
    map shown_label (displayArea st)
    = Some (lit "bot:")
      :: map (fun e => Some (role e ++ lit ":")) (conversationHistory st)
    /\ map shown_text (displayArea st)
       = Some (lit " " ++ welcome ++ lit " ")
         :: map (fun e => Some (lit " " ++ toString (message e) ++ lit " "))
                (conversationHistory st)));
    [|split; reflexivity].
  intros st e [Hl Ht].
  apply (step_cases (fun _ st' =>
    map shown_label (displayArea st')
    = Some (lit "bot:")
      :: map (fun e => Some (role e ++ lit ":")) (conversationHistory st')
    /\ map shown_text (displayArea st')
       = Some (lit " " ++ welcome ++ lit " ")
         :: map (fun e => Some (lit " " ++ toString (message e) ++ lit " "))
                (conversationHistory st'))).
  - now split.
  - intros v. now split.
  - intros now' Hne. simpl. rewrite !map_app, Hl, Ht. now split.
  - intros x now' t rest Htm. simpl. rewrite !map_app, Hl, Ht. now split.
Qed.

(** X10.  [src/script.js] never hands text to the markup parser: after every
    sequence of events every block of the display is a [div] holding a
    [strong] element, a text node and a [small] element, each of the two
    elements holding a single text node, whatever the user typed. *)
Theorem display_built_from_nodes (now value : jsstring) (es : list event) :
  forallb built_from_nodes
          (displayArea (Script.run (Script.init now value) es)) = true.
Proof.
  apply (run_invariant
           (fun st => forallb built_from_nodes (displayArea st) = true));
    [|reflexivity].
  intros st e H.
  apply (step_cases
           (fun _ st' => forallb built_from_nodes (displayArea st') = true)).
  - exact H.
  - intros v. exact H.
  - intros now' Hne. simpl. now rewrite forallb_app, H.
  - intros x now' t rest Htm. simpl. now rewrite forallb_app, H.
Qed.

End ChatRuns.

(** ** Blocks, markup and the choice of the reply *)

Section ChatBlocks.

(** X11.  User messages stand on the right, everything else on the left: the
    welcome block is aligned left, and the block of a log entry is aligned
    right exactly when the role of the entry is [user]. *)
Theorem user_right_others_left (now value : jsstring) (es : list event) :
  let st := Script.run (Script.init now value) es in
  map textAlign (displayArea st)
  = Some "left"%string
    :: map (fun e => if strict_eq (role e) (lit "user")
                     then Some "right"%string else Some "left"%string)
           (conversationHistory st).
Proof.
  apply (run_invariant (fun st =>
    map textAlign (displayArea st)
    = Some "left"%string
      :: map (fun e => if strict_eq (role e) (lit "user")
                       then Some "right"%string else Some "left"%string)
             (conversationHistory st)));
    [|reflexivity].
  intros st e H.
  apply (step_cases (fun _ st' =>
    map textAlign (displayArea st')
    = Some "left"%string
      :: map (fun e => if strict_eq (role e) (lit "user")
                       then Some "right"%string else Some "left"%string)
             (conversationHistory st'))).
  - exact H.
  - intros v. exact H.
  - intros now' Hne. simpl. now rewrite !map_app, H.
  - intros x now' t rest Htm. simpl. now rewrite !map_app, H.
Qed.

(** X13.  Which reply is chosen.  The draw picks the template by the quarter of
    the unit interval it falls in: for [i] among 0, 1, 2, 3, a draw [x] with
    [i/4 <= x < (i+1)/4] gives the template of index [i]. *)
Theorem reply_template_by_quarter
    (x : Q) (userMessage : jsstring) (i : nat) :
  (i < 4)%nat ->
  (Z.of_nat i # 4 <= x)%Q ->
  (x < Z.of_nat (S i) # 4)%Q ->
  Script.generateBotResponse x userMessage
  = str (nth i (Script.responses userMessage) empty).
Proof.
  intros Hi Hlo Hhi.
  assert (Hfloor : floor_scaled x 4 = Z.of_nat i).
  { unfold floor_scaled, Qfloor. destruct x as [n d].
    unfold Qle, Qlt in *. simpl in *. rewrite Pos.mul_1_r.
    symmetry. apply Z.div_unique with (r := (n * 4 - Z.of_nat i * Z.pos d)%Z);
      lia. }
  unfold Script.generateBotResponse, element_at.
  change (List.length (Script.responses userMessage)) with 4%nat.
  rewrite Hfloor.
  destruct (Z.ltb_spec (Z.of_nat i) 0) as [Hneg|_]; [lia|].
  rewrite Nat2Z.id.
  destruct i as [|[|[|[|i]]]]; try reflexivity. lia.
Qed.

Lemma reply_template_by_quarter_witness :
  Script.generateBotResponse (5 # 8)%Q (lit "hi")
  = str (lit "Processing your input: " ++ dquote ++ lit "hi" ++ dquote).
Proof.
  apply (reply_template_by_quarter (5 # 8)%Q (lit "hi") 2).
  - lia.
  - vm_compute. discriminate.
  - vm_compute. reflexivity.
Defined.

End ChatBlocks.

(** ** More on the report form of src/unnamed/part_001 *)

Section ReportOutcomes.

Import Report.

Ltac unfold_handler :=
  unfold after_click, onClick, bind, get_questionBox_value, alert, perform,
    try_catch_finally, fetch, response_json, data_question,
    data_document_url, set_statusMessage_textContent, set_result_innerHTML,
    set_button_disabled, throw, ret;
  cbn beta iota zeta delta [fst snd not_string negb
    statusMessage_textContent result_innerHTML button_disabled
    questionBox_value trace].

(** Every case of a run: a blank question, then what the network can
    answer to a question that was sent. *)
Ltac handler_cases p network :=
  unfold_handler;
  destruct (trim (questionBox_value p)) as [|?c ?T] eqn:?Htrim;
  [ | destruct network as [?m | ?r]; unfold_handler;
      [ | destruct (ok _) eqn:?Hok; unfold_handler;
          [ destruct (json _) eqn:?Hjson; unfold_handler | ] ] ].

(** X14.  Nothing escapes the handler: whatever the question box holds and
    whatever the network answers (no answer, an error status, a body that is
    not JSON, a [null] body), the run completes normally. *)
Theorem onClick_never_throws (network : fetch_result) (p : page) :
  fst (onClick network p) = Normal tt.
Proof.
  handler_cases p network; reflexivity.
Qed.

(** X15.  Every way a sent request can fail other than by its status ends the
    same way: the status region shows [Error: ] followed by the message of
    the error, the result region is empty and the button is enabled.  This
    holds when the request cannot be made, when the body of a successful
    response is not JSON, and when that body is [null]. *)
Theorem failures_show_message_and_clear_result
    (p : page) (network : fetch_result) (m : jsstring) :
  trim (questionBox_value p) <> [] ->
  network = NetworkError m
  \/ (exists r, network = Responded r /\ ok r = true
                /\ (json r = JsonRejects m \/ json r = JsonNull m)) ->
  statusMessage_textContent (after_click network p) = lit "Error: " ++ m
  /\ result_innerHTML (after_click network p) = empty
  /\ button_disabled (after_click network p) = false.
Proof.
  intros Hne [-> | [r [-> [Hok Hjson]]]]; unfold_handler;
    (destruct (trim (questionBox_value p)) as [|c T]; [contradiction|]);
    unfold_handler.
  - now repeat split.
  - rewrite Hok. unfold_handler.
    destruct Hjson as [-> | ->]; unfold_handler; now repeat split.
Qed.

Lemma failures_show_message_and_clear_result_witness :
  statusMessage_textContent (after_click Sample.offline Sample.asked)
  = lit "Error: Failed to fetch"
  /\ result_innerHTML (after_click Sample.offline Sample.asked) = empty
  /\ button_disabled (after_click Sample.offline Sample.asked) = false.
Proof.
  apply (failures_show_message_and_clear_result
           Sample.asked Sample.offline (lit "Failed to fetch")).
  - vm_compute. discriminate.
  - left. reflexivity.
Defined.

(** X16.  A response counts as a success by [response.ok] alone, and its body is
    not validated: when the JSON body lacks [question] and [document_url],
    the page still reports success, and the result shows the word
    [undefined] as the question and as the address of the link. *)
Theorem missing_fields_render_undefined (p : page) (r : response) :
  trim (questionBox_value p) <> [] ->
  ok r = true ->
  json r = JsonValue undefined undefined ->
  statusMessage_textContent (after_click (Responded r) p)
  = lit "Report generated successfully!"
  /\ includes (result_innerHTML (after_click (Responded r) p))
              (lit "<a href=" ++ dquote ++ lit "undefined" ++ dquote)
  /\ includes (result_innerHTML (after_click (Responded r) p))
              (lit "Research Question:</strong> undefined</p>").
Proof.
  intros Hne Hok Hjson.
  destruct (onClick_ok r undefined undefined p Hne Hok Hjson) as [Hs Hr].
  rewrite Hs, Hr. split; [reflexivity|]. split.
  - exists (newline
            ++ lit "            <p><strong>Research Question:</strong> "
            ++ lit "undefined</p>" ++ newline
            ++ lit "            <p><strong>Download Report:</strong> "
            ++ newline ++ lit "               "),
           (lit " target=" ++ dquote ++ lit "_blank" ++ dquote
            ++ lit ">Download</a></p>").
    reflexivity.
  - exists (newline ++ lit "            <p><strong>"),
           (newline
            ++ lit "            <p><strong>Download Report:</strong> "
            ++ newline
            ++ lit "               <a href=" ++ dquote ++ lit "undefined"
            ++ dquote ++ lit " target=" ++ dquote ++ lit "_blank" ++ dquote
            ++ lit ">Download</a></p>").
    reflexivity.
Qed.

Lemma missing_fields_render_undefined_witness :
  statusMessage_textContent
    (after_click (Responded Sample.created_without_fields) Sample.asked)
  = lit "Report generated successfully!".
Proof.
  apply (missing_fields_render_undefined
           Sample.asked Sample.created_without_fields).
  - vm_compute. discriminate.
  - reflexivity.
  - reflexivity.
Defined.

(** X17.  The two regions never disagree: after a question was sent, the status
    region reports success exactly when the result region holds a result. *)
Theorem success_shown_iff_result_rendered
    (network : fetch_result) (p : page) :
  trim (questionBox_value p) <> [] ->
  statusMessage_textContent (after_click network p)
  = lit "Report generated successfully!"
  <-> result_innerHTML (after_click network p) <> empty.
Proof.
  intros Hne. handler_cases p network; try contradiction;
    (split; [intros H; try discriminate H | intros H; try reflexivity;
                                            try now contradiction H]).
  unfold result_markup, newline. discriminate.
Qed.

Lemma success_shown_iff_result_rendered_witness :
  statusMessage_textContent (after_click Sample.report_ready Sample.asked)
  = lit "Report generated successfully!"
  <-> result_innerHTML (after_click Sample.report_ready Sample.asked)
      <> empty.
Proof.
  apply (success_shown_iff_result_rendered Sample.report_ready Sample.asked).
  vm_compute. discriminate.
Defined.

(** X18.  Each click has exactly one effect outside the page, an alert or a
    request, and it is the alert exactly when the question box holds white
    space only. *)
Theorem click_alerts_iff_blank (network : fetch_result) (p : page) :
  exists e,
    trace (after_click network p) = trace p ++ [e]
    /\ ((exists m, e = Alert m)
        <-> forallb isWhiteSpace (questionBox_value p) = true).
Proof.
  destruct (trim (questionBox_value p)) as [|c T] eqn:Htrim.
  - eexists. rewrite (onClick_blank network p Htrim). simpl.
    split; [reflexivity|]. split.
    + intros _. now apply trim_empty_iff.
    + intros _. now eexists.
  - assert (Hne : trim (questionBox_value p) <> [])
      by (rewrite Htrim; discriminate).
    destruct (onClick_submitted network p Hne) as [Htrace _].
    eexists. split; [exact Htrace|]. split.
    + intros [m Hm]. discriminate Hm.
    + intros Hblank. apply trim_empty_iff in Hblank. contradiction.
Qed.

(** X19.  The page shows the latest outcome only.  What a run of the handler
    leaves in the status region, the result region, the button and the
    question box depends on the question and on the answer of the network,
    not on what the page showed before. *)
Theorem outcome_overwrites_previous
    (network : fetch_result) (p q : page) :
  trim (questionBox_value p) <> [] ->
  questionBox_value p = questionBox_value q ->
  statusMessage_textContent (after_click network p)
  = statusMessage_textContent (after_click network q)
  /\ result_innerHTML (after_click network p)
     = result_innerHTML (after_click network q)
  /\ button_disabled (after_click network p)
     = button_disabled (after_click network q)
  /\ questionBox_value (after_click network p)
     = questionBox_value (after_click network q).
Proof.
  intros Hne Hq. unfold_handler. rewrite <- Hq.
  destruct (trim (questionBox_value p)) as [|c T]; [contradiction|].
  destruct network as [m | r]; unfold_handler; [now repeat split|].
  destruct (ok r); unfold_handler; [|now repeat split].
  destruct (json r); unfold_handler; now repeat split.
Qed.

Lemma outcome_overwrites_previous_witness :
  statusMessage_textContent
    (after_click Sample.offline
       (after_click Sample.report_ready Sample.asked))
  = statusMessage_textContent (after_click Sample.offline Sample.asked)
  /\ result_innerHTML
       (after_click Sample.offline
          (after_click Sample.report_ready Sample.asked))
     = result_innerHTML (after_click Sample.offline Sample.asked).
Proof.
  destruct (outcome_overwrites_previous Sample.offline
              (after_click Sample.report_ready Sample.asked) Sample.asked)
    as [Hs [Hr _]].
  - vm_compute. discriminate.
  - reflexivity.
  - split; [exact Hs | exact Hr].
Defined.

(** X20.  The handler never changes the question box, so clicking again sends the
    same request again: after two clicks on a question the trace has grown
    by two requests that are equal, whatever the network answered to the
    first. *)
Theorem second_click_repeats_request
    (first second : fetch_result) (p : page) :
  trim (questionBox_value p) <> [] ->
  exists sent,
    trace (after_click second (after_click first p))
    = trace p ++ [Fetch sent; Fetch sent]
    /\ body sent
       = JSON_stringify [(lit "question", trim (questionBox_value p))]
    /\ questionBox_value (after_click second (after_click first p))
       = questionBox_value p.
Proof.
  intros Hne.
  destruct (onClick_submitted first p Hne) as [Ht1 [_ Hq1]].
  assert (Hne' : trim (questionBox_value (after_click first p)) <> [])
    by now rewrite Hq1.
  destruct (onClick_submitted second (after_click first p) Hne')
    as [Ht2 [_ Hq2]].
  eexists. rewrite Ht2, Ht1, Hq2, Hq1, <- app_assoc. simpl.
  split; [reflexivity|]. split; reflexivity.
Qed.

Lemma second_click_repeats_request_witness :
  exists sent,
    trace (after_click Sample.report_ready
             (after_click Sample.offline Sample.asked))
    = trace Sample.asked ++ [Fetch sent; Fetch sent]
    /\ body sent
       = JSON_stringify
           [(lit "question", trim (questionBox_value Sample.asked))]
    /\ questionBox_value
         (after_click Sample.report_ready
            (after_click Sample.offline Sample.asked))
       = questionBox_value Sample.asked.
Proof.
  apply (second_click_repeats_request
           Sample.offline Sample.report_ready Sample.asked).
  vm_compute. discriminate.
Defined.

End ReportOutcomes.

(** ** The body of the request *)

Section RequestBody.

Import Report.

Local Open Scope N_scope.

(** The cases of [quoteUnit], one test after the other. *)
Lemma quoteUnit_cases (c : code_unit) :
  quoteUnit c =
  if c =? 8 then backslash ++ lit "b"
  else if c =? 9 then backslash ++ lit "t"
  else if c =? 10 then backslash ++ lit "n"
  else if c =? 12 then backslash ++ lit "f"
  else if c =? 13 then backslash ++ lit "r"
  else if c =? 34 then backslash ++ dquote
  else if c =? 92 then backslash ++ backslash
  else if (c <? 32) || isLeadingSurrogate c || isTrailingSurrogate c
       then unicodeEscape c
       else [c].
Proof.
  destruct c as [|p]; [reflexivity|].
  do 7 (try (destruct p as [p|p|]; try reflexivity)).
Qed.

Lemma hex_digit_printable (d : N) : 32 <= hex_digit d.
Proof. unfold hex_digit. destruct (d <? 10); lia. Qed.

Lemma quoteUnit_printable (c : code_unit) :
  Forall (fun u => 32 <= u) (quoteUnit c).
Proof.
  rewrite quoteUnit_cases.
  repeat match goal with
         | |- context [if ?b =? ?k then _ else _] =>
             destruct (b =? k);
             [repeat constructor; discriminate|]
         end.
  destruct (_ || _) eqn:E.
  - unfold unicodeEscape. simpl.
    repeat constructor; try discriminate; apply hex_digit_printable.
  - apply orb_false_iff in E as [E _]. apply orb_false_iff in E as [E _].
    apply N.ltb_ge in E. now repeat constructor.
Qed.

Lemma quoteUnit_plain (c : code_unit) :
  isPlain c = true -> quoteUnit c = [c].
Proof.
  unfold isPlain. intros H.
  repeat (apply andb_true_iff in H as [H ?]).
  repeat match goal with
         | H : negb _ = true |- _ => apply negb_true_iff in H
         end.
  rewrite quoteUnit_cases.
  assert (Hc : 32 <= c) by now apply N.ltb_ge.
  repeat match goal with
         | |- context [if ?b =? ?k then _ else _] =>
             destruct (N.eqb_spec b k); [subst; try lia; discriminate|]
         end.
  match goal with
  | H1 : (c <? 32) = false, H2 : isLeadingSurrogate c = false,
    H3 : isTrailingSurrogate c = false |- _ => now rewrite H1, H2, H3
  end.
Qed.

(** [quoteUnits] goes by one code unit or by two; what holds of its result
    is shown for a string and for the string with one more unit in front. *)
Lemma quoteUnits_printable (s : jsstring) :
  Forall (fun u => 32 <= u) (quoteUnits s).
Proof.
  cut (Forall (fun u => 32 <= u) (quoteUnits s)
       /\ forall c, Forall (fun u => 32 <= u) (quoteUnits (c :: s))).
  { now intros [H _]. }
  induction s as [|d s [IHs IHc]].
  - split; [constructor|]. intros c. apply quoteUnit_printable.
  - split; [apply IHc|]. intros c.
    change (quoteUnits (c :: d :: s))
      with (if isLeadingSurrogate c && isTrailingSurrogate d
            then c :: d :: quoteUnits s
            else quoteUnit c ++ quoteUnits (d :: s)).
    destruct (isLeadingSurrogate c && isTrailingSurrogate d) eqn:E.
    + apply andb_true_iff in E as [Ec Ed].
      unfold isLeadingSurrogate in Ec. unfold isTrailingSurrogate in Ed.
      apply andb_true_iff in Ec as [Ec _]. apply andb_true_iff in Ed as [Ed _].
      apply N.leb_le in Ec, Ed.
      constructor; [lia|]. constructor; [lia | exact IHs].
    + apply Forall_app. split; [apply quoteUnit_printable | apply IHc].
Qed.

Lemma quoteUnits_plain (s : jsstring) :
  forallb isPlain s = true -> quoteUnits s = s.
Proof.
  induction s as [|c s IH]; [reflexivity|].
  intros H. simpl in H. apply andb_true_iff in H as [Hc Hs].
  destruct s as [|d s]; [now apply quoteUnit_plain|].
  change (quoteUnits (c :: d :: s))
    with (if isLeadingSurrogate c && isTrailingSurrogate d
          then c :: d :: quoteUnits s
          else quoteUnit c ++ quoteUnits (d :: s)).
  assert (Hlead : isLeadingSurrogate c = false).
  { unfold isPlain in Hc.
    apply andb_true_iff in Hc as [Hc _]. apply andb_true_iff in Hc as [_ Hc].
    now apply negb_true_iff in Hc. }
  rewrite Hlead. simpl andb. cbv iota.
  now rewrite (quoteUnit_plain c Hc), (IH Hs).
Qed.

(** X21.  Whatever was typed, the body of the request holds no control character
    (so no raw line break or tab): every code unit of it is at least
    U+0020. *)
Theorem request_body_has_no_control_character
    (network : fetch_result) (p : page) :
  trim (questionBox_value p) <> [] ->
  exists sent,
    requests_of (trace (after_click network p))
    = requests_of (trace p) ++ [sent]
    /\ Forall (fun u => 32 <= u) (body sent).
Proof.
  intros Hne. destruct (onClick_submitted network p Hne) as [Htrace _].
  eexists. rewrite Htrace, requests_of_app. split; [reflexivity|].
  unfold body, JSON_stringify, quoteJSONString, join, map, fst, snd.
  repeat (apply Forall_app; split); try apply quoteUnits_printable;
    repeat constructor; discriminate.
Qed.

Lemma request_body_has_no_control_character_witness :
  exists sent,
    requests_of (trace (after_click Sample.offline Sample.asked))
    = requests_of (trace Sample.asked) ++ [sent]
    /\ Forall (fun u => 32 <= u) (body sent).
Proof.
  apply (request_body_has_no_control_character Sample.offline Sample.asked).
  vm_compute. discriminate.
Defined.

(** X22.  A question made of plain characters only (no control character, double
    quote, backslash or surrogate) is sent as it is, between double quotes:
    the body is [{"question":"T"}] for the trimmed question [T]. *)
Theorem plain_question_sent_verbatim (network : fetch_result) (p : page) :
  trim (questionBox_value p) <> [] ->
  forallb isPlain (trim (questionBox_value p)) = true ->
  exists sent,
    requests_of (trace (after_click network p))
    = requests_of (trace p) ++ [sent]
    /\ body sent
       = lit "{" ++ dquote ++ lit "question" ++ dquote ++ lit ":"
         ++ dquote ++ trim (questionBox_value p) ++ dquote ++ lit "}".
Proof.
  intros Hne Hplain. destruct (onClick_submitted network p Hne) as [Htrace _].
  eexists. rewrite Htrace, requests_of_app. split; [reflexivity|].
  unfold body, JSON_stringify, quoteJSONString, join, map, fst, snd.
  rewrite (quoteUnits_plain _ Hplain).
  rewrite (quoteUnits_plain (lit "question") eq_refl).
  now rewrite <- !app_assoc.
Qed.

Lemma plain_question_sent_verbatim_witness :
  exists sent,
    requests_of (trace (after_click Sample.offline Sample.asked))
    = requests_of (trace Sample.asked) ++ [sent]
    /\ body sent
       = lit "{" ++ dquote ++ lit "question" ++ dquote ++ lit ":"
         ++ dquote ++ trim (questionBox_value Sample.asked) ++ dquote
         ++ lit "}".
Proof.
  apply (plain_question_sent_verbatim Sample.offline Sample.asked).
  - vm_compute. discriminate.
  - reflexivity.
Defined.

End RequestBody.

(** ** src/script.js against src/unnamed/part_000 *)

Section TwoScripts.

(** C10, at a message that is markup.  The user types
    [Sample.injection], an image with a handler for its failure, and sends
    it; the image then fails to load.  The log of [src/script.js] holds the
    user's entry; in [src/unnamed/part_000] the message was parsed as
    markup, the handler has run and the log is empty. *)
Theorem part000_log_emptied_by_injected_handler :
  conversationHistory
    (Script.run (Script.init (lit "10:00:00") empty) Sample.injected_send)
  = [{| role := lit "user"; message := str Sample.injection |}]
  /\ Part000.page_events
       (map Part000.Page Sample.injected_send ++ [Part000.ImageFails 0])
     = Sample.injected_send
  /\ exists d,
       Part000.session (lit "10:00:00") empty
         (map Part000.Page Sample.injected_send ++ [Part000.ImageFails 0])
       = Some d
       /\ conversationHistory (Part000.script d) = [].
Proof.
  split; [reflexivity|]. split; [reflexivity|].
  eexists. split; [vm_compute; reflexivity | reflexivity].
Qed.

Lemma is_text_app (a b : jsstring) :
  is_text (a ++ b) = is_text a && is_text b.
Proof. apply forallb_app. Qed.

Lemma is_text_trim (s : jsstring) : is_text s = true -> is_text (trim s) = true.
Proof.
  intros H. destruct (trim_split s) as [l [r [Hs _]]].
  rewrite Hs, !is_text_app in H.
  apply andb_true_iff in H as [_ H]. now apply andb_true_iff in H as [H _].
Qed.

Lemma is_text_reply (x : Q) (userText : jsstring) :
  is_text userText = true ->
  is_text (toString (Part000.generateBotResponse x userText)) = true.
Proof.
  intros H. unfold Part000.generateBotResponse, element_at.
  destruct (_ <? 0)%Z; [reflexivity|].
  destruct (nth_error _ _) as [reply|] eqn:Hnth; [|reflexivity].
  apply nth_error_In in Hnth. simpl toString.
  destruct Hnth as [<- | [<- | [<- | [<- | []]]]];
    rewrite !is_text_app, H; reflexivity.
Qed.

(** A message that is text adds its block and starts no image. *)
Lemma appendMessageToDisplay_text
    (now sender : jsstring) (content : jsval) (d : Part000.document) :
  is_text now = true -> is_text sender = true ->
  is_text (toString content) = true ->
  Part000.appendMessageToDisplay now sender content d
  = Some {| Part000.script :=
              appendChild
                (Element "div" (block_style sender)
                   (InnerHTML (lit "<strong>" ++ sender ++ lit ":</strong> "
                               ++ toString content
                               ++ lit " <small>(" ++ now ++ lit ")</small>")))
                (Part000.script d);
            Part000.loading := Part000.loading d |}.
Proof.
  intros Hn Hs Hc. unfold Part000.appendMessageToDisplay.
  rewrite (parse_block_markup sender (toString content) now Hs Hc Hn).
  cbn. now rewrite app_nil_r.
Qed.

(** Both scripts add a block with the same frame and keep the rest. *)
Lemma text_session_block
    (now sender : jsstring) (content : jsval) (markup : jsstring)
    (a : chat) (d : Part000.document) :
  same_chat a (Part000.script d) ->
  same_chat (Script.appendMessageToDisplay now sender content a)
            (appendChild (Element "div" (block_style sender) (InnerHTML markup))
                         (Part000.script d)).
Proof.
  intros [Hh Hi Ht Hd]. constructor; simpl; try assumption.
  apply Forall2_app; [assumption|].
  constructor; [|constructor]. simpl. now split.
Qed.

Lemma text_session_send (now : jsstring) (a : chat) (d : Part000.document) :
  text_session a d -> is_text now = true ->
  exists d',
    Part000.handleUserMessage now d = Some d'
    /\ text_session (Script.handleUserMessage now a) d'.
Proof.
  intros [Hsame Hidle Hinput Htimers] Hnow.
  unfold Part000.handleUserMessage, Script.handleUserMessage.
  rewrite <- (same_input _ _ Hsame).
  destruct (strict_eq (trim (inputField_value a)) empty).
  { exists d. split; [reflexivity | now constructor]. }
  assert (Htext : is_text (trim (inputField_value a)) = true)
    by now apply is_text_trim.
  rewrite appendMessageToDisplay_text by (assumption || reflexivity).
  eexists. split; [reflexivity|].
  pose proof (text_session_block now (lit "user")
                (str (trim (inputField_value a)))
                (lit "<strong>" ++ lit "user" ++ lit ":</strong> "
                 ++ trim (inputField_value a)
                 ++ lit " <small>(" ++ now ++ lit ")</small>")
                (push_history
                   {| role := lit "user";
                      message := str (trim (inputField_value a)) |} a)
                (Part000.on_script
                   (push_history
                      {| role := lit "user";
                         message := str (trim (inputField_value a)) |}) d))
    as Hblock.
  destruct Hsame as [Hh Hi Ht Hd].
  destruct Hblock as [Hh' Hi' Ht' Hd'].
  { constructor; simpl; try assumption. now rewrite Hh. }
  constructor; simpl.
  - constructor; simpl; try assumption; try reflexivity. now rewrite Ht.
  - assumption.
  - reflexivity.
  - apply Forall_app. split; [assumption|]. now repeat constructor.
Qed.

Lemma text_session_step
    (e : Part000.browser_event) (a : chat) (d : Part000.document) :
  text_session a d -> brings_text e = true ->
  exists d',
    Part000.step d e = Some d'
    /\ text_session (Script.run a (Part000.page_events [e])) d'.
Proof.
  intros Hs He.
  destruct e as [[v | now | key now | x now] | k | k]; simpl in He;
    cbn [Part000.page_events flat_map app Script.run fold_left Script.step
         Part000.step].
  - destruct Hs as [[Hh Hi Ht Hd] Hidle Hinput Htimers].
    eexists. split; [reflexivity|]. now repeat constructor.
  - now apply text_session_send.
  - destruct (strict_eq key (lit "Enter")); [now apply text_session_send|].
    now exists d.
  - destruct Hs as [Hsame Hidle Hinput Htimers].
    rewrite <- (same_timers _ _ Hsame).
    destruct (timers a) as [|t rest] eqn:Htm.
    { exists d. split; [reflexivity|]. constructor; try assumption.
      now rewrite Htm. }
    inversion Htimers as [|t' rest' Ht Hrest]; subst.
    unfold Part000.botReplyCallback, Script.botReplyCallback.
    rewrite appendMessageToDisplay_text;
      [|assumption | reflexivity | now apply is_text_reply].
    eexists. split; [reflexivity|].
    destruct Hsame as [Hh Hi Ht' Hd].
    constructor; simpl; try assumption.
    apply (text_session_block now (lit "bot")
             (Script.generateBotResponse x (userText_captured t)) _
             (push_history _ (set_timers rest a))
             (Part000.on_script (push_history _)
                (Part000.on_script (set_timers rest) d))).
    constructor; simpl; try assumption; try reflexivity. now rewrite Hh.
  - destruct Hs as [Hsame Hidle Hinput Htimers].
    eexists. split; [reflexivity|].
    constructor; simpl; try assumption.
    rewrite Hidle. now destruct k.
  - destruct Hs as [Hsame Hidle Hinput Htimers].
    rewrite Hidle. exists d. split; [now destruct k|]. now constructor.
Qed.

Lemma text_session_run (es : list Part000.browser_event) :
  forall (a : chat) (d : Part000.document),
  text_session a d -> forallb brings_text es = true ->
  exists d',
    Part000.run d es = Some d'
    /\ text_session (Script.run a (Part000.page_events es)) d'.
Proof.
  induction es as [|e es IH]; intros a d Hs Hes.
  - now exists d.
  - simpl in Hes. apply andb_true_iff in Hes as [He Hes].
    destruct (text_session_step e a d Hs He) as [d1 [Hstep Hs1]].
    destruct (IH _ _ Hs1 Hes) as [d' [Hrun Hs']].
    exists d'. cbn [Part000.run]. rewrite Hstep. split; [exact Hrun|].
    change (e :: es) with ([e] ++ es).
    unfold Part000.page_events in *. rewrite flat_map_app.
    unfold Script.run in *. now rewrite fold_left_app.
Qed.

(** X23.  As long as no markup comes in, the two scripts agree.  When the
    input field at load time, every text typed and every reading of the
    clock hold no [<], [&], NUL or CR, then after every sequence of events
    [src/unnamed/part_000] has started no image, and its log, its input
    field and its timers are those of [src/script.js] after the same
    events. *)
Theorem scripts_agree_on_text
    (now value : jsstring) (es : list Part000.browser_event) :
  is_text now = true -> is_text value = true ->
  forallb brings_text es = true ->
  exists d,
    Part000.session now value es = Some d
    /\ conversationHistory (Part000.script d)
       = conversationHistory
           (Script.run (Script.init now value) (Part000.page_events es))
    /\ Part000.loading d = []
    /\ same_chat (Script.run (Script.init now value) (Part000.page_events es))
                 (Part000.script d).
Proof.
  intros Hnow Hvalue Hes. unfold Part000.session, Part000.init.
  rewrite appendMessageToDisplay_text by (assumption || reflexivity).
  match goal with
  | |- context [Part000.run ?d0 es] =>
      assert (Hinit : text_session (Script.init now value) d0)
  end.
  { constructor; simpl; try assumption; try reflexivity;
      try (now constructor).
    constructor; simpl; try reflexivity.
    constructor; [|constructor]. simpl. now split. }
  destruct (text_session_run es _ _ Hinit Hes)
    as [d [Hrun [Hsame Hidle _ _]]].
  exists d. split; [exact Hrun|]. split; [|split; assumption].
  symmetry. apply (same_history _ _ Hsame).
Qed.

Lemma scripts_agree_on_text_witness :
  exists d,
    Part000.session (lit "10:00:00") (lit "  hi ")
      (map Part000.Page Sample.two_sends)
    = Some d
    /\ conversationHistory (Part000.script d)
       = conversationHistory
           (Script.run (Script.init (lit "10:00:00") (lit "  hi "))
              (Part000.page_events (map Part000.Page Sample.two_sends)))
    /\ Part000.loading d = []
    /\ same_chat
         (Script.run (Script.init (lit "10:00:00") (lit "  hi "))
            (Part000.page_events (map Part000.Page Sample.two_sends)))
         (Part000.script d).
Proof.
  apply (scripts_agree_on_text (lit "10:00:00") (lit "  hi ")
           (map Part000.Page Sample.two_sends));
    reflexivity.
Defined.

End TwoScripts.
